(** * RPN_Calc/main.py: a bounded stack on a NumPy array and an RPN evaluator

    Shallow embedding of [MyStack] and [RpnCalculator] and the properties of
    the specification that were checked against them.

    Modelling conventions.
    - A Python [str] is a [string] of 8-bit code points (the Latin-1 part of
      Unicode); the built-ins [str.split], [int] and [str] are written out for
      that alphabet.
    - A Python exception is a value of [exn]; a computation that may raise
      returns a [result].
    - A [MyStack] object is mutable: its methods are state transformers that
      always hand back the object, also when they raise.
    - The NumPy array [np.zeros([capacity], dtype=int)] is a [list Z] whose
      elements lie in the signed 64-bit range; arithmetic on the [np.int64]
      scalars read back from it wraps around (NumPy only warns).
    - CPython bounds the depth of recursion; [mult] takes the number of
      levels still available and raises [RecursionError] when they run out.
      A call of [mult] takes one level and the comparisons in its body one
      more (where CPython runs a comparison of two [int] in specialised
      form, that level is not taken; the model always takes it).
    - [dtype=int] is taken to be [int64], as it is on 64-bit Linux and macOS
      and everywhere from NumPy 2 on.
    - The bound that CPython 3.11 and later put on the number of digits that
      [int] and [str] convert (4300 unless reconfigured) is left out. *)

From Stdlib Require Import ZArith String Ascii List Lia Bool.
From Stdlib Require Import Decimal DecimalString DecimalZ DecimalPos.
From stdpp Require Import base tactics option list strings.

Local Open Scope Z_scope.

(** ** Exceptions and results *)

Inductive exn : Type :=
| ValueError (msg : string)
| IndexError (msg : string)
| OverflowError
| RecursionError.

Inductive result (A : Type) : Type :=
| Ok (a : A)
| Raise (e : exn).
Arguments Ok {A} a.
Arguments Raise {A} e.

Definition result_bind {A B} (r : result A) (k : A -> result B) : result B :=
  match r with
  | Ok a => k a
  | Raise e => Raise e
  end.

(** ** Python built-ins on strings *)

Module Py.

(** [str(n)] for an [int]: decimal digits, a leading minus sign when negative. *)
Definition str (n : Z) : string := NilZero.string_of_int (Z.to_int n).

Definition is_digit (c : ascii) : bool :=
  let n := Z.of_nat (nat_of_ascii c) in (48 <=? n) && (n <=? 57).

Definition digit_value (c : ascii) : Z := Z.of_nat (nat_of_ascii c) - 48.

(** [str.isspace] on one code point below 256: TAB LF VT FF CR, the four
    separators FS GS RS US, SPACE, NEL and NBSP. *)
Definition is_space (c : ascii) : bool :=
  let n := Z.of_nat (nat_of_ascii c) in
  ((9 <=? n) && (n <=? 13)) || ((28 <=? n) && (n <=? 32))
  || (n =? 133) || (n =? 160).

(** The digits of an [int] literal after its first digit: digits, each
    optionally preceded by a single underscore. *)
Fixpoint int_digits (acc : Z) (s : string) : option Z :=
  match s with
  | EmptyString => Some acc
  | String c s' =>
      if is_digit c then int_digits (10 * acc + digit_value c) s'
      else if Ascii.eqb c "_" then
        match s' with
        | String d s'' =>
            if is_digit d then int_digits (10 * acc + digit_value d) s''
            else None
        | EmptyString => None
        end
      else None
  end.

Definition int_unsigned (s : string) : option Z :=
  match s with
  | String c s' => if is_digit c then int_digits (digit_value c) s' else None
  | EmptyString => None
  end.

(** The white space that [int] ignores around a literal: the characters of
    [is_space] except the separators FS GS RS US. *)
Definition is_int_space (c : ascii) : bool :=
  let n := Z.of_nat (nat_of_ascii c) in
  ((9 <=? n) && (n <=? 13)) || (n =? 32) || (n =? 133) || (n =? 160).

Fixpoint lstrip (s : string) : string :=
  match s with
  | String c s' => if is_int_space c then lstrip s' else s
  | EmptyString => EmptyString
  end.

Fixpoint rstrip (s : string) : string :=
  match s with
  | String c s' =>
      let r := rstrip s' in
      if is_int_space c && String.eqb r "" then EmptyString else String c r
  | EmptyString => EmptyString
  end.

(** An [int] literal: an optional sign and the digits. *)
Definition int_literal (s : string) : option Z :=
  match s with
  | String c s' =>
      if Ascii.eqb c "-" then Z.opp <$> int_unsigned s'
      else if Ascii.eqb c "+" then int_unsigned s'
      else int_unsigned s
  | EmptyString => None
  end.

(** [int(s)]: the literal left when the surrounding white space is taken
    off; [None] stands for [ValueError]. *)
Definition int (s : string) : option Z := int_literal (rstrip (lstrip s)).

(** [s.split()]: the maximal runs of non-space characters, in order.
    [tok] is the run being read. *)
Fixpoint split_from (tok : string) (s : string) : list string :=
  match s with
  | EmptyString => if String.eqb tok "" then [] else [tok]
  | String c s' =>
      if is_space c
      then (if String.eqb tok "" then split_from "" s'
            else tok :: split_from "" s')
      else split_from (tok +:+ String c "") s'
  end.

Definition split (s : string) : list string := split_from "" s.

End Py.

(** ** NumPy: [int64] scalars and one-dimensional [int64] arrays *)

Module Np.

Definition int64_min : Z := - 2 ^ 63.
Definition int64_max : Z := 2 ^ 63 - 1.

Definition in_int64 (v : Z) : bool := (int64_min <=? v) && (v <=? int64_max).

(** Two's-complement reduction to 64 bits. *)
Definition wrap64 (v : Z) : Z := (v + 2 ^ 63) mod 2 ^ 64 - 2 ^ 63.

(** Scalar arithmetic on [np.int64]: overflow and division by zero only
    emit a [RuntimeWarning]; the result wraps, and [x // 0] is [0]. *)
Definition add (x y : Z) : Z := wrap64 (x + y).
Definition sub (x y : Z) : Z := wrap64 (x - y).
Definition absolute (x : Z) : Z := wrap64 (Z.abs x).
Definition floor_divide (x y : Z) : Z :=
  if y =? 0 then 0 else wrap64 (x / y).

(** [np.zeros([n], dtype=int)]. *)
Definition zeros (n : Z) : result (list Z) :=
  if n <? 0 then Raise (ValueError "negative dimensions are not allowed")
  else Ok (replicate (Z.to_nat n) 0).

(** Position addressed by index [i] in an array of length [n]: negative
    indices count from the end. *)
Definition position (n i : Z) : option nat :=
  if (0 <=? i) && (i <? n) then Some (Z.to_nat i)
  else if (- n <=? i) && (i <? 0) then Some (Z.to_nat (n + i))
  else None.

Definition out_of_bounds : exn := IndexError "index is out of bounds for axis 0".

(** [a[i]] *)
Definition getitem (a : list Z) (i : Z) : result Z :=
  match position (Z.of_nat (length a)) i with
  | Some k =>
      match a !! k with
      | Some v => Ok v
      | None => Raise out_of_bounds
      end
  | None => Raise out_of_bounds
  end.

(** [a[i] = v]: a value that does not fit the element type is refused. *)
Definition setitem (a : list Z) (i : Z) (v : Z) : result (list Z) :=
  match position (Z.of_nat (length a)) i with
  | Some k => if in_int64 v then Ok (<[k := v]> a) else Raise OverflowError
  | None => Raise out_of_bounds
  end.

End Np.

(** ** The number types [mult] is called with *)

Class Number : Type := {
  num_add : Z -> Z -> Z;
  num_sub : Z -> Z -> Z;
  num_abs : Z -> Z
}.

(** Python's unbounded [int]. *)
Definition py_int : Number :=
  {| num_add := Z.add; num_sub := Z.sub; num_abs := Z.abs |}.

(** [np.int64], as popped from the stack. *)
Definition np_int64 : Number :=
  {| num_add := Np.add; num_sub := Np.sub; num_abs := Np.absolute |}.

(** ** class MyStack *)

Module MyStack.

Definition MAX_CAPACITY : Z := 100000.
Definition DEFAULT_CAPACITY : Z := 10.

Record t : Type := mk {
  capacity : Z;
  default_item : Z;
  stack : list Z;
  top_of_stack : Z
}.

(** A method: it receives the object and returns its outcome together with
    the object as the call left it. *)
Definition M (A : Type) : Type := t -> result A * t.

Definition ret {A} (a : A) : M A := fun self => (Ok a, self).
Definition raise {A} (e : exn) : M A := fun self => (Raise e, self).
Definition bind {A B} (m : M A) (k : A -> M B) : M B :=
  fun self =>
    match m self with
    | (Ok a, self') => k a self'
    | (Raise e, self') => (Raise e, self')
    end.
Definition lift {A} (r : result A) : M A := fun self => (r, self).

Notation "x <- c1 ;; c2" := (bind c1 (fun x => c2))
  (at level 100, c1 at next level, right associativity).
Notation "c1 ;;; c2" := (bind c1 (fun _ => c2))
  (at level 100, right associativity).

Definition InvalidCapacity (capacity : Z) : exn :=
  ValueError ("Capacity " +:+ Py.str capacity +:+ " is invalid").
Definition StackOverflow : exn := IndexError "Push failed - capacity reached".
Definition StackUnderflow : exn := IndexError "Pop failed - stack is empty".

Definition validate_capacity (capacity : Z) : bool :=
  (0 <=? capacity) && (capacity <=? MAX_CAPACITY).

Definition is_empty (self : t) : bool := top_of_stack self =? 0.
Definition is_full (self : t) : bool := top_of_stack self =? capacity self.
Definition get_capacity (self : t) : Z := capacity self.

Definition clear : M unit := fun self =>
  match Np.zeros (capacity self) with
  | Raise e => (Raise e, self)
  | Ok a =>
      (Ok tt, {| capacity := capacity self; default_item := default_item self;
                 stack := a; top_of_stack := 0 |})
  end.

(** [MyStack(default_item, capacity)]: the new object, or the exception.
    Until [clear] has run, the object has no [stack] and no [top_of_stack]:
    the two fields hold values that no stack in use has, and [clear]
    replaces both. *)
Definition __init__ (default_item capacity : Z) : result t :=
  if negb (validate_capacity capacity) then Raise (InvalidCapacity capacity)
  else
    let self := {| capacity := capacity; default_item := default_item;
                   stack := []; top_of_stack := -1 |} in
    match clear self with
    | (Ok _, self') => Ok self'
    | (Raise e, _) => Raise e
    end.

Definition push (item_to_push : Z) : M unit := fun self =>
  if is_full self then (Raise StackOverflow, self)
  else
    match Np.setitem (stack self) (top_of_stack self) item_to_push with
    | Raise e => (Raise e, self)
    | Ok a =>
        (Ok tt, {| capacity := capacity self; default_item := default_item self;
                   stack := a; top_of_stack := top_of_stack self + 1 |})
    end.

Definition pop : M Z := fun self =>
  if is_empty self then (Raise StackUnderflow, self)
  else
    let self' := {| capacity := capacity self;
                    default_item := default_item self;
                    stack := stack self;
                    top_of_stack := top_of_stack self - 1 |} in
    (Np.getitem (stack self') (top_of_stack self'), self').

End MyStack.

(** ** class RpnCalculator *)

Module RpnCalculator.
Import MyStack.

Definition ADDITION : string := "+".
Definition SUBTRACTION : string := "-".
Definition MULTIPLICATION : string := "*".
Definition FLOOR : string := "//".

Definition UnknownOperator : exn := ValueError "Unknown operator".
Definition MalformedExpression : exn := IndexError "Not enough operator".

(** [mult(x, y)] with [depth] levels of recursion left. The call takes one
    level, and the comparisons at the head of its body enter one more. *)
Fixpoint mult `{Number} (depth : nat) (x y : Z) : result Z :=
  match depth with
  | O => Raise RecursionError
  | S depth' =>
      if Nat.eqb depth' 0 then Raise RecursionError
      else if (y =? 0) || (x =? 0) then Ok 0
      else if (x <? 0) && (y <? 0) then
        let absolute_x := num_abs x in
        let absolute_y := num_abs x in
        result_bind (mult depth' absolute_y (num_sub absolute_x 1))
          (fun r => Ok (num_add absolute_y r))
      else if (y <? 0) && (x >? 0) then
        result_bind (mult depth' y (num_sub x 1))
          (fun r => Ok (num_add y r))
      else
        result_bind (mult depth' x (num_sub y 1))
          (fun r => Ok (num_add x r))
  end.

(** The body of the [for] loop of [eval_tokens] for one token. The
    [try] block raises [ValueError] only from [int(token)]. *)
Definition eval_token (depth : nat) (token : string) : M unit :=
  match Py.int token with
  | Some token_int => push token_int
  | None =>
      right_arg <- pop ;;
      left_arg <- pop ;;
      if String.eqb token ADDITION then
        push (Np.add left_arg right_arg)
      else if String.eqb token SUBTRACTION then
        push (Np.sub left_arg right_arg)
      else if String.eqb token FLOOR then
        push (Np.floor_divide left_arg right_arg)
      else if String.eqb token MULTIPLICATION then
        product <- lift (mult (H := np_int64) depth left_arg right_arg) ;;
        push product
      else raise UnknownOperator
  end.

Fixpoint eval_loop (depth : nat) (tokens : list string) : M unit :=
  match tokens with
  | [] => ret tt
  | token :: tokens' => eval_token depth token ;;; eval_loop depth tokens'
  end.

(** The statements after the loop. *)
Definition eval_finish : M Z := fun my_stack =>
  if negb (top_of_stack my_stack / 2 =? 0)
  then (Raise MalformedExpression, my_stack)
  else pop my_stack.

Definition eval_tokens (depth : nat) (tokens : list string) : result Z :=
  result_bind (__init__ 1 1000)
    (fun my_stack => fst ((eval_loop depth tokens ;;; eval_finish) my_stack)).

Definition parse (rpn_expression : string) : list string :=
  Py.split rpn_expression.

Definition eval (depth : nat) (rpn_expression : string) : result Z :=
  let parsed := parse rpn_expression in
  let result := eval_tokens depth parsed in
  result.

End RpnCalculator.

(** ** Vocabulary of the statements *)

Import MyStack RpnCalculator.

(** The logically valid elements of a stack, bottom first: the slots below
    [top_of_stack]. *)
Definition contents (self : MyStack.t) : list Z :=
  take (Z.to_nat (top_of_stack self)) (stack self).

(** Representation invariant of a [MyStack] object. *)
Record stack_inv (self : MyStack.t) : Prop := {
  inv_top : 0 <= top_of_stack self <= capacity self;
  inv_length : Z.of_nat (length (stack self)) = capacity self;
  inv_int64 : Forall (fun v => Np.in_int64 v = true) (stack self)
}.

(** [history l self]: the object [self] is the outcome of a constructor call
    followed by calls of [clear], [push] and [pop], failed calls included;
    [l] lists the values pushed and not yet popped, oldest first. *)
Inductive history : list Z -> MyStack.t -> Prop :=
| history_new default_item capacity self :
    __init__ default_item capacity = Ok self ->
    history [] self
| history_clear l self self' :
    history l self -> clear self = (Ok tt, self') ->
    history [] self'
| history_push l self v self' :
    history l self -> push v self = (Ok tt, self') ->
    history (l ++ [v]) self'
| history_pop l self v self' :
    history l self -> pop self = (Ok v, self') ->
    history (removelast l) self'
| history_clear_failed l self e self' :
    history l self -> clear self = (Raise e, self') ->
    history l self'
| history_push_failed l self v e self' :
    history l self -> push v self = (Raise e, self') ->
    history l self'
| history_pop_failed l self e self' :
    history l self -> pop self = (Raise e, self') ->
    history l self'.

(** The object [MyStack(1, 1000)] that [eval_tokens] starts from. *)
Definition my_stack0 : MyStack.t :=
  {| capacity := 1000; default_item := 1;
     stack := replicate (Z.to_nat 1000) 0; top_of_stack := 0 |}.

(** The arguments of the recursive call that [mult(x, y)] makes, if any. *)
Definition mult_call `{Number} (x y : Z) : option (Z * Z) :=
  if (y =? 0) || (x =? 0) then None
  else if (x <? 0) && (y <? 0) then Some (num_abs x, num_sub (num_abs x) 1)
  else if (y <? 0) && (x >? 0) then Some (y, num_sub x 1)
  else Some (x, num_sub y 1).

(** The number of recursive calls still ahead of [mult(x, y)]; the call
    returns when at least two more levels of recursion are left. *)
Definition mult_measure (x y : Z) : Z :=
  if (y =? 0) || (x =? 0) then 0
  else if (x <? 0) && (y <? 0) then Z.abs x
  else if (y <? 0) && (x >? 0) then x
  else y.

(** The operator branch of [eval_token], after the two [pop]s. *)
Local Abbreviation operator_case depth token :=
  (fun left_arg right_arg =>
     if String.eqb token ADDITION then
       push (Np.add left_arg right_arg)
     else if String.eqb token SUBTRACTION then
       push (Np.sub left_arg right_arg)
     else if String.eqb token FLOOR then
       push (Np.floor_divide left_arg right_arg)
     else if String.eqb token MULTIPLICATION then
       product <- lift (mult (H := np_int64) depth left_arg right_arg) ;;
       push product
     else raise UnknownOperator).

(** The expression made of two operands and one operator. *)
Definition binary_expression (a b : Z) (op : string) : string :=
  Py.str a +:+ " " +:+ Py.str b +:+ " " +:+ op.

Fixpoint no_space (s : string) : bool :=
  match s with
  | EmptyString => true
  | String c s' => negb (Py.is_space c) && no_space s'
  end.

(** ** Expressions and their postfix form *)

Inductive operator : Type := Add | Sub | Mul | FloorDiv.

Definition symbol (o : operator) : string :=
  match o with
  | Add => ADDITION
  | Sub => SUBTRACTION
  | Mul => MULTIPLICATION
  | FloorDiv => FLOOR
  end.

Inductive expr : Type :=
| Operand (n : Z)
| Apply (o : operator) (lhs rhs : expr).

(** The tokens of an expression in reverse Polish notation. *)
Fixpoint postfix (e : expr) : list string :=
  match e with
  | Operand n => [Py.str n]
  | Apply o lhs rhs => postfix lhs ++ postfix rhs ++ [symbol o]
  end.

(** The value of an operator on two 64-bit operands: the mathematical
    result reduced to 64 bits, and 0 for a division by zero. *)
Definition apply_operator (o : operator) (a b : Z) : Z :=
  match o with
  | Add => Np.wrap64 (a + b)
  | Sub => Np.wrap64 (a - b)
  | Mul => Np.wrap64 (a * b)
  | FloorDiv => if b =? 0 then 0 else Np.wrap64 (a / b)
  end.

Fixpoint value (e : expr) : Z :=
  match e with
  | Operand n => n
  | Apply o lhs rhs => apply_operator o (value lhs) (value rhs)
  end.

(** The number of stack slots the evaluation of the postfix form uses. *)
Fixpoint stack_need (e : expr) : Z :=
  match e with
  | Operand _ => 1
  | Apply _ lhs rhs => Z.max (stack_need lhs) (1 + stack_need rhs)
  end.

(** Operands in the 64-bit range, and at every product operands that are
    not both negative and at least two more levels of recursion in [depth]
    than [mult] makes recursive calls. *)
Fixpoint evaluable (depth : nat) (e : expr) : Prop :=
  match e with
  | Operand n => Np.in_int64 n = true
  | Apply o lhs rhs =>
      evaluable depth lhs /\ evaluable depth rhs /\
      (o = Mul ->
       ~ (value lhs < 0 /\ value rhs < 0) /\
       mult_measure (value lhs) (value rhs) < Z.of_nat depth - 1)
  end.

(** A token as [split] produces them: not empty, without white space. *)
Definition is_token (s : string) : Prop := no_space s = true /\ s <> "".

(** The exceptions an evaluation can end with. *)
Definition eval_exceptions : list exn :=
  [StackOverflow; StackUnderflow; UnknownOperator; MalformedExpression;
   OverflowError; RecursionError].

(** * Properties *)

(** The run recorded at the end of the source file, with the default
    recursion limit of CPython. *)
Example recorded_run :
  map (RpnCalculator.eval 1000)
      [""; "1 1 &"; "1 1"; "1 1 + +"; "Random Junk"; "1"; "1 1 +"; "15 5 +";
       "15 -5 *"; "1 1 1 + -"; "15 7 1 1 + - // 3 * 2 1 1 + + -";
       "-5 27 *"; "-5 -27 *"; "-5 0 *"; "0 5 *"; "0 0 *"; "0 kk *"]
  = [Raise StackUnderflow; Raise UnknownOperator; Raise MalformedExpression;
     Raise StackUnderflow; Raise StackUnderflow; Ok 1; Ok 2; Ok 20;
     Ok (-75); Ok (-1); Ok 5;
     Ok (-135); Ok 25; Ok 0; Ok 0; Ok 0; Raise StackUnderflow].
Proof. vm_compute. reflexivity. Qed.

(** [int] takes off the white space around a literal, and [mult] needs two
    more levels of recursion than it makes recursive calls. *)
Example int_and_depth_boundaries :
  Py.int " 5" = Some 5 /\ Py.int "5 " = Some 5 /\ Py.int " - 5" = None /\
  RpnCalculator.eval 997 "2 996 *" = Raise RecursionError /\
  RpnCalculator.eval 998 "2 996 *" = Ok 1992 /\
  mult (H := np_int64) 50 3 49 = Raise RecursionError /\
  mult (H := np_int64) 51 3 49 = Ok 147.
Proof. repeat split; vm_compute; reflexivity. Qed.

(** ** 64-bit range and wrap-around *)

Lemma in_int64_iff v :
  Np.in_int64 v = true <-> - 2 ^ 63 <= v <= 2 ^ 63 - 1.
Proof. unfold Np.in_int64, Np.int64_min, Np.int64_max. lia. Qed.

Lemma in_int64_false_iff v :
  Np.in_int64 v = false <-> v < - 2 ^ 63 \/ 2 ^ 63 - 1 < v.
Proof. unfold Np.in_int64, Np.int64_min, Np.int64_max. lia. Qed.

Lemma wrap64_in_int64 v : Np.in_int64 (Np.wrap64 v) = true.
Proof.
  apply in_int64_iff. unfold Np.wrap64.
  pose proof (Z.mod_pos_bound (v + 2 ^ 63) (2 ^ 64) ltac:(lia)). lia.
Qed.

Lemma wrap64_id v : Np.in_int64 v = true -> Np.wrap64 v = v.
Proof.
  intros Hv%in_int64_iff. unfold Np.wrap64.
  rewrite Z.mod_small by lia. lia.
Qed.

Lemma wrap64_add_r x y : Np.wrap64 (x + Np.wrap64 y) = Np.wrap64 (x + y).
Proof.
  unfold Np.wrap64. f_equal.
  replace (x + ((y + 2 ^ 63) mod 2 ^ 64 - 2 ^ 63) + 2 ^ 63)
    with (x + (y + 2 ^ 63) mod 2 ^ 64) by lia.
  rewrite Zplus_mod_idemp_r. f_equal. lia.
Qed.

(** ** The stack operations *)

Lemma position_in_range n i :
  0 <= i < n -> Np.position n i = Some (Z.to_nat i).
Proof.
  intros Hi. unfold Np.position.
  destruct (0 <=? i) eqn:E1; [|lia]. destruct (i <? n) eqn:E2; [|lia]. done.
Qed.

Lemma zeros_ok n :
  0 <= n -> Np.zeros n = Ok (replicate (Z.to_nat n) 0).
Proof. intros Hn. unfold Np.zeros. destruct (n <? 0) eqn:E; [lia|done]. Qed.

Lemma clear_ok self :
  0 <= capacity self ->
  clear self =
    (Ok tt, {| capacity := capacity self; default_item := default_item self;
               stack := replicate (Z.to_nat (capacity self)) 0;
               top_of_stack := 0 |}).
Proof. intros Hc. unfold clear. by rewrite zeros_ok. Qed.

Lemma fresh_inv c d :
  0 <= c ->
  stack_inv {| capacity := c; default_item := d;
               stack := replicate (Z.to_nat c) 0; top_of_stack := 0 |}.
Proof.
  intros Hc. split; simpl.
  - lia.
  - rewrite length_replicate. lia.
  - apply Forall_replicate. done.
Qed.

Lemma init_ok d c :
  validate_capacity c = true ->
  __init__ d c =
    Ok {| capacity := c; default_item := d;
          stack := replicate (Z.to_nat c) 0; top_of_stack := 0 |}.
Proof.
  intros Hv. unfold __init__. rewrite Hv. simpl.
  rewrite clear_ok; simpl; [done|].
  unfold validate_capacity in Hv. lia.
Qed.

Lemma init_inv d c self :
  __init__ d c = Ok self ->
  stack_inv self /\ capacity self = c /\ contents self = [].
Proof.
  unfold __init__. destruct (validate_capacity c) eqn:Hv; simpl; [|done].
  assert (0 <= c) by (unfold validate_capacity in Hv; lia).
  rewrite clear_ok by done. simpl. intros [= <-].
  split; [by apply fresh_inv|done].
Qed.

Lemma contents_length self :
  stack_inv self -> Z.of_nat (length (contents self)) = top_of_stack self.
Proof.
  intros [Ht Hl _]. unfold contents. rewrite length_take. lia.
Qed.

Lemma push_ok self v :
  stack_inv self -> top_of_stack self < capacity self ->
  Np.in_int64 v = true ->
  exists self',
    push v self = (Ok tt, self') /\ stack_inv self' /\
    capacity self' = capacity self /\
    top_of_stack self' = top_of_stack self + 1 /\
    contents self' = contents self ++ [v].
Proof.
  intros [Ht Hl Hr] Hlt Hv. unfold push, is_full, Np.setitem.
  destruct (top_of_stack self =? capacity self) eqn:E; [lia|].
  rewrite position_in_range by lia. rewrite Hv.
  eexists. split; [done|]. split; [|split; [done|split; [done|]]].
  - split; simpl.
    + lia.
    + rewrite length_insert. done.
    + apply Forall_insert; done.
  - unfold contents. simpl.
    replace (Z.to_nat (top_of_stack self + 1))
      with (S (Z.to_nat (top_of_stack self))) by lia.
    rewrite (take_S_r _ _ v).
    + by rewrite take_insert_ge by lia.
    + apply list_lookup_insert_eq. lia.
Qed.

Lemma pop_ok self l v :
  stack_inv self -> contents self = l ++ [v] ->
  exists self',
    pop self = (Ok v, self') /\ stack_inv self' /\
    capacity self' = capacity self /\
    top_of_stack self' = top_of_stack self - 1 /\
    contents self' = l.
Proof.
  intros Hinv Hc. pose proof (contents_length _ Hinv) as Hn.
  destruct Hinv as [Ht Hl Hr].
  rewrite Hc, length_app in Hn. simpl in Hn.
  unfold pop, is_empty, Np.getitem.
  destruct (top_of_stack self =? 0) eqn:E; [lia|]. simpl.
  rewrite position_in_range by lia.
  assert (Hl' : length l = Z.to_nat (top_of_stack self - 1)) by lia.
  assert (Hv : stack self !! Z.to_nat (top_of_stack self - 1) = Some v).
  { rewrite <- (lookup_take_lt _ (Z.to_nat (top_of_stack self))) by lia.
    fold (contents self). rewrite Hc, <- Hl'.
    by rewrite list_lookup_middle. }
  rewrite Hv. eexists. split; [done|].
  split; [|split; [done|split; [done|]]].
  - split; simpl; [lia|done|done].
  - unfold contents in *. simpl.
    apply (f_equal (take (length l))) in Hc.
    rewrite take_take, take_app_length in Hc. rewrite <- Hc. f_equal. lia.
Qed.

Lemma clear_inv self r self' :
  stack_inv self -> clear self = (r, self') ->
  stack_inv self' /\ capacity self' = capacity self.
Proof.
  intros Hinv. rewrite clear_ok by (destruct Hinv; lia). intros [= <- <-].
  split; [|done]. apply fresh_inv. destruct Hinv; lia.
Qed.

Lemma push_inv self v r self' :
  stack_inv self -> push v self = (r, self') ->
  stack_inv self' /\ capacity self' = capacity self.
Proof.
  intros Hinv Hp.
  destruct (decide (top_of_stack self < capacity self)) as [Hlt|Hge];
    [destruct (Np.in_int64 v) eqn:Hv|].
  - destruct (push_ok self v Hinv Hlt Hv) as (s & Hs & ? & ? & _).
    rewrite Hs in Hp. by injection Hp as <- <-.
  - revert Hp. unfold push, is_full, Np.setitem.
    destruct (top_of_stack self =? capacity self); [by intros [= <- <-]|].
    destruct Hinv as [Ht Hl Hr].
    rewrite position_in_range by lia. rewrite Hv.
    by intros [= <- <-].
  - revert Hp. unfold push, is_full.
    destruct Hinv as [Ht Hl Hr].
    destruct (top_of_stack self =? capacity self) eqn:E; [|lia].
    by intros [= <- <-].
Qed.

Lemma pop_inv self r self' :
  stack_inv self -> pop self = (r, self') ->
  stack_inv self' /\ capacity self' = capacity self.
Proof.
  intros [Ht Hl Hr]. unfold pop, is_empty.
  destruct (top_of_stack self =? 0) eqn:E.
  - by intros [= <- <-].
  - intros [= <- <-]. split; [|done]. split; simpl; [lia|done|done].
Qed.

Lemma push_ok_inv self v self' :
  stack_inv self -> push v self = (Ok tt, self') ->
  top_of_stack self < capacity self /\ Np.in_int64 v = true.
Proof.
  intros [Ht Hl Hr]. unfold push, is_full, Np.setitem.
  destruct (top_of_stack self =? capacity self) eqn:E; [done|].
  rewrite position_in_range by lia.
  destruct (Np.in_int64 v); [|done]. intros _. split; [lia|done].
Qed.

Lemma push_failed_unchanged self v e self' :
  push v self = (Raise e, self') -> self' = self.
Proof.
  unfold push. destruct (is_full self); [by intros [= _ <-]|].
  destruct (Np.setitem _ _ _); [done|by intros [= _ <-]].
Qed.

Lemma contents_snoc self :
  stack_inv self -> 0 < top_of_stack self ->
  exists l v, contents self = l ++ [v].
Proof.
  intros Hinv Hpos. pose proof (contents_length _ Hinv) as Hn.
  destruct (contents self) as [|x l'] eqn:E using rev_ind.
  - simpl in Hn. lia.
  - eauto.
Qed.

Lemma pop_failed_unchanged self e self' :
  stack_inv self -> pop self = (Raise e, self') ->
  self' = self /\ top_of_stack self = 0.
Proof.
  intros Hinv Hp.
  destruct (decide (top_of_stack self = 0)) as [Hz|Hnz].
  - revert Hp. unfold pop, is_empty. rewrite Hz. simpl. by intros [= _ <-].
  - destruct (contents_snoc self Hinv) as (l & v & Hc);
      [destruct Hinv; lia|].
    destruct (pop_ok self l v Hinv Hc) as (s & Hs & _).
    rewrite Hs in Hp. done.
Qed.

(** ** Claims about [MyStack] *)

(** C4. A [push] on a full stack raises the "Push failed" [IndexError]
    (StackOverflow) and a [pop] on an empty stack raises the "Pop failed"
    [IndexError] (StackUnderflow); in both cases every attribute of the
    object, the stored elements included, is as before the call. *)
Theorem push_full_pop_empty_fail (full empty : MyStack.t) (v : Z) :
  top_of_stack full = capacity full ->
  top_of_stack empty = 0 ->
  push v full = (Raise StackOverflow, full) /\
  pop empty = (Raise StackUnderflow, empty).
Proof.
  intros Hfull Hempty. split.
  - unfold push, is_full. rewrite Hfull, Z.eqb_refl. done.
  - unfold pop, is_empty. rewrite Hempty. done.
Qed.

Lemma push_full_pop_empty_fail_witness :
  let full := {| capacity := 2; default_item := 1;
                 stack := [5; 6]; top_of_stack := 2 |} in
  let empty := {| capacity := 2; default_item := 1;
                  stack := [5; 6]; top_of_stack := 0 |} in
  push 7 full = (Raise StackOverflow, full) /\
  pop empty = (Raise StackUnderflow, empty).
Proof.
  intros full empty.
  apply (push_full_pop_empty_fail full empty 7); reflexivity.
Defined.

(** C5. The constructor raises the "Capacity ... is invalid" [ValueError]
    (InvalidCapacity) exactly when the capacity is below 0 or above 100000;
    for a capacity from 0 to 100000 it returns an empty stack of that
    capacity, and it does so in no other case. The empty stack is the one
    that the call of [clear] in the constructor leaves: [top_of_stack] is
    0 and the array has [capacity] slots, all zero. *)
Theorem init_capacity_check (default_item capacity : Z) :
  (__init__ default_item capacity = Raise (InvalidCapacity capacity)
   <-> capacity < 0 \/ capacity > 100000) /\
  (0 <= capacity <= 100000
   <-> exists self,
         __init__ default_item capacity = Ok self /\
         top_of_stack self = 0 /\ is_empty self = true /\
         contents self = [] /\ MyStack.capacity self = capacity /\
         stack self = replicate (Z.to_nat capacity) 0 /\
         clear self = (Ok tt, self)).
Proof.
  destruct (validate_capacity capacity) eqn:Hv.
  - assert (Hc : 0 <= capacity <= 100000)
      by (unfold validate_capacity, MAX_CAPACITY in Hv; lia).
    rewrite (init_ok _ _ Hv). split.
    + split; [done|lia].
    + split; [|done]. intros _. eexists. split; [done|].
      repeat (split; [done|]). rewrite clear_ok by (simpl; lia). done.
  - assert (Hc : capacity < 0 \/ capacity > 100000)
      by (unfold validate_capacity, MAX_CAPACITY in Hv; lia).
    unfold __init__. rewrite Hv. simpl. split.
    + done.
    + split; [lia|]. by intros (self & ? & _).
Qed.

(** C8. After the constructor and any sequence of [clear], [push] and [pop]
    calls, failed ones included, [0 <= top_of_stack <= capacity], the array
    has [capacity] slots, and the values pushed and not yet popped are
    exactly the slots below [top_of_stack], in the order they were pushed:
    [top_of_stack] is the index one past the last valid element. *)
Theorem history_invariant (l : list Z) (self : MyStack.t) :
  history l self ->
  0 <= top_of_stack self <= capacity self /\
  Z.of_nat (length (stack self)) = capacity self /\
  contents self = l /\
  Z.of_nat (length l) = top_of_stack self.
Proof.
  intros H.
  enough (stack_inv self /\ contents self = l) as [Hinv Hc].
  { pose proof (contents_length _ Hinv) as Hn. rewrite Hc in Hn.
    destruct Hinv. done. }
  induction H as [d c self Hi
                 |l self self' _ [Hinv Hc] Hop
                 |l self v self' _ [Hinv Hc] Hop
                 |l self v self' _ [Hinv Hc] Hop
                 |l self e self' _ [Hinv Hc] Hop
                 |l self v e self' _ [Hinv Hc] Hop
                 |l self e self' _ [Hinv Hc] Hop].
  - apply init_inv in Hi. tauto.
  - split; [by eapply clear_inv|].
    rewrite clear_ok in Hop by (destruct Hinv; lia).
    by injection Hop as <-.
  - destruct (push_ok_inv _ _ _ Hinv Hop) as [Hlt Hv].
    destruct (push_ok self v Hinv Hlt Hv) as (s & Hs & ? & _ & _ & Hc').
    rewrite Hs in Hop. injection Hop as <-. by rewrite Hc' , Hc.
  - assert (Hpos : 0 < top_of_stack self).
    { destruct Hinv as [Ht _ _]. revert Hop. unfold pop, is_empty.
      destruct (top_of_stack self =? 0) eqn:E; [done|lia]. }
    destruct (contents_snoc self Hinv Hpos) as (l' & x & Hlx).
    destruct (pop_ok self l' x Hinv Hlx) as (s & Hs & ? & _ & _ & Hc').
    rewrite Hs in Hop. injection Hop as _ <-.
    split; [done|]. rewrite <- Hc, Hlx, removelast_last. done.
  - rewrite clear_ok in Hop by (destruct Hinv; lia). done.
  - apply push_failed_unchanged in Hop. by subst.
  - apply pop_failed_unchanged in Hop as [-> _]; done.
Qed.

Lemma history_invariant_witness :
  let self := {| capacity := 3; default_item := 1;
                 stack := [5; 0; 0]; top_of_stack := 1 |} in
  history [5] self /\
  0 <= top_of_stack self <= capacity self /\
  Z.of_nat (length (stack self)) = capacity self /\
  contents self = [5] /\
  Z.of_nat (length [5]) = top_of_stack self.
Proof.
  intros self.
  assert (H : history ([] ++ [5]) self).
  { eapply history_push; [apply (history_new 1 3); reflexivity|reflexivity]. }
  split; [exact H|exact (history_invariant _ _ H)].
Defined.

(** ** The multiply primitive *)

Lemma mult_one `{Number} x y : mult 1 x y = Raise RecursionError.
Proof. reflexivity. Qed.

Lemma mult_unfold `{Number} depth x y :
  (1 <= depth)%nat ->
  mult (S depth) x y =
    match mult_call x y with
    | None => Ok 0
    | Some (x', y') =>
        result_bind (mult depth x' y') (fun r => Ok (num_add x' r))
    end.
Proof.
  intros Hd. destruct depth as [|d]; [lia|].
  unfold mult_call. cbn [mult Nat.eqb].
  destruct ((y =? 0) || (x =? 0)); [done|].
  destruct ((x <? 0) && (y <? 0)); [done|].
  destruct ((y <? 0) && (x >? 0)); done.
Qed.

Ltac mult_branch :=
  rewrite mult_unfold by lia; unfold mult_call;
  repeat match goal with
    | |- context [if ?b then _ else _] =>
        let E := fresh "E" in destruct b eqn:E; try lia
    end.

(** On Python integers, with a non-negative second operand. *)
Lemma mult_py_nonneg depth x y :
  0 <= y < Z.of_nat depth - 1 -> mult (H := py_int) depth x y = Ok (x * y).
Proof.
  revert y. induction depth as [|d IH]; intros y Hy; [lia|].
  mult_branch.
  - f_equal. lia.
  - simpl. rewrite IH by lia. simpl. f_equal. lia.
Qed.

(** On Python integers, the second operand negative and the first positive. *)
Lemma mult_py_pos_neg depth x y :
  0 < x < Z.of_nat depth - 1 -> y < 0 ->
  mult (H := py_int) depth x y = Ok (x * y).
Proof.
  intros Hx Hy. destruct depth as [|d]; [lia|].
  mult_branch. simpl. rewrite mult_py_nonneg by lia. simpl. f_equal. lia.
Qed.

(** On Python integers, both operands negative: the second operand is not
    used, and the result is the square of the first. *)
Lemma mult_py_neg_neg depth x y :
  x < 0 -> y < 0 -> - x < Z.of_nat depth - 1 ->
  mult (H := py_int) depth x y = Ok (x * x).
Proof.
  intros Hx Hy Hd. destruct depth as [|d]; [lia|].
  mult_branch. simpl. rewrite mult_py_nonneg by lia. simpl. f_equal. lia.
Qed.

Lemma mult_measure_nonneg x y : 0 <= mult_measure x y.
Proof.
  unfold mult_measure.
  repeat match goal with
    | |- context [if ?b then _ else _] => destruct b eqn:?; try lia
    end.
Qed.

Lemma mult_py_value depth x y :
  mult_measure x y < Z.of_nat depth - 1 ->
  mult (H := py_int) depth x y =
    Ok (if (x <? 0) && (y <? 0) then x * x else x * y).
Proof.
  unfold mult_measure.
  destruct ((y =? 0) || (x =? 0)) eqn:E0.
  - intros Hd. destruct depth as [|d]; [lia|].
    mult_branch; f_equal; lia.
  - destruct ((x <? 0) && (y <? 0)) eqn:E1.
    { intros Hd. apply mult_py_neg_neg; lia. }
    destruct ((y <? 0) && (x >? 0)) eqn:E2.
    { intros Hd. apply mult_py_pos_neg; lia. }
    intros Hd. apply mult_py_nonneg. lia.
Qed.

(** On [np.int64] operands, not both negative: the product, wrapped. *)
Lemma mult_np_nonneg depth x y :
  0 <= y < Z.of_nat depth - 1 -> Np.in_int64 y = true ->
  mult (H := np_int64) depth x y = Ok (Np.wrap64 (x * y)).
Proof.
  revert y. induction depth as [|d IH]; intros y Hy Hr; [lia|].
  apply in_int64_iff in Hr.
  assert (Hy1 : Np.wrap64 (y - 1) = y - 1)
    by (destruct (Z.eq_dec y 0);
        [subst; reflexivity|apply wrap64_id, in_int64_iff; lia]).
  mult_branch.
  - f_equal. replace (x * y) with 0 by lia. done.
  - simpl. unfold Np.sub. rewrite Hy1.
    rewrite IH by (try apply in_int64_iff; lia). simpl. f_equal.
    unfold Np.add. rewrite wrap64_add_r. f_equal. lia.
Qed.

Lemma mult_np_pos_neg depth x y :
  0 < x < Z.of_nat depth - 1 -> y < 0 -> Np.in_int64 x = true ->
  mult (H := np_int64) depth x y = Ok (Np.wrap64 (x * y)).
Proof.
  intros Hx Hy Hr. destruct depth as [|d]; [lia|].
  apply in_int64_iff in Hr.
  assert (Hx1 : Np.wrap64 (x - 1) = x - 1)
    by (apply wrap64_id, in_int64_iff; lia).
  mult_branch. simpl. unfold Np.sub. rewrite Hx1.
  rewrite mult_np_nonneg by (try apply in_int64_iff; lia). simpl. f_equal.
  unfold Np.add. rewrite wrap64_add_r. f_equal. lia.
Qed.

Lemma mult_np_value depth x y :
  Np.in_int64 x = true -> Np.in_int64 y = true ->
  ~ (x < 0 /\ y < 0) ->
  mult_measure x y < Z.of_nat depth - 1 ->
  mult (H := np_int64) depth x y = Ok (Np.wrap64 (x * y)).
Proof.
  intros Hx Hy Hnn. unfold mult_measure.
  destruct ((y =? 0) || (x =? 0)) eqn:E0.
  - intros Hd. destruct depth as [|d]; [lia|]. mult_branch.
    f_equal. replace (x * y) with 0 by lia. done.
  - destruct ((x <? 0) && (y <? 0)) eqn:E1; [lia|].
    destruct ((y <? 0) && (x >? 0)) eqn:E2.
    { intros Hd. apply mult_np_pos_neg; [lia|lia|done]. }
    intros Hd. apply mult_np_nonneg; [lia|done].
Qed.

(** On [np.int64] operands, both negative: the square of the first,
    wrapped. For [x = -2^63] the absolute value wraps to [x] itself and the
    recursive call is [mult(-2^63, 2^63 - 1)]. *)
Lemma mult_np_neg_neg depth x y :
  x < 0 -> y < 0 -> Np.in_int64 x = true -> - x < Z.of_nat depth - 1 ->
  mult (H := np_int64) depth x y = Ok (Np.wrap64 (x * x)).
Proof.
  intros Hx Hy Hr Hd. destruct depth as [|d]; [lia|].
  apply in_int64_iff in Hr.
  mult_branch. simpl. unfold Np.absolute, Np.sub.
  destruct (Z.eq_dec x (- 2 ^ 63)) as [->|Hmin].
  - change (Np.wrap64 (Z.abs (- 2 ^ 63))) with (- 2 ^ 63).
    change (Np.wrap64 (- 2 ^ 63 - 1)) with (2 ^ 63 - 1).
    rewrite mult_np_nonneg by (try apply in_int64_iff; lia). simpl.
    unfold Np.add. rewrite wrap64_add_r. reflexivity.
  - assert (Ha : Np.wrap64 (Z.abs x) = - x)
      by (rewrite wrap64_id; [lia|apply in_int64_iff; lia]).
    rewrite Ha.
    assert (Ha1 : Np.wrap64 (- x - 1) = - x - 1)
      by (apply wrap64_id, in_int64_iff; lia).
    rewrite Ha1.
    rewrite mult_np_nonneg by (try apply in_int64_iff; lia). simpl.
    unfold Np.add. rewrite wrap64_add_r. do 2 f_equal. lia.
Qed.

Lemma mult_np_returns depth x y :
  Np.in_int64 x = true -> Np.in_int64 y = true ->
  mult_measure x y < Z.of_nat depth - 1 ->
  exists v, mult (H := np_int64) depth x y = Ok v.
Proof.
  intros Hx Hy Hd.
  destruct (Z_lt_le_dec x 0) as [Hxn|Hxp];
    [destruct (Z_lt_le_dec y 0) as [Hyn|Hyp]|].
  - rewrite (mult_np_neg_neg depth x y) by
      (try done; revert Hd; unfold mult_measure;
       repeat match goal with
         | |- context [if ?b then _ else _] => destruct b eqn:?; try lia
         end).
    eauto.
  - rewrite mult_np_value by (try done; lia). eauto.
  - rewrite mult_np_value by (try done; lia). eauto.
Qed.

Lemma mult_call_np_decreases x y x' y' :
  Np.in_int64 x = true -> Np.in_int64 y = true ->
  mult_call (H := np_int64) x y = Some (x', y') ->
  Np.in_int64 x' = true /\ Np.in_int64 y' = true /\
  mult_measure x' y' < mult_measure x y.
Proof.
  intros Hx Hy. unfold mult_call. simpl. unfold Np.absolute, Np.sub.
  pose proof Hx as Hx'%in_int64_iff. pose proof Hy as Hy'%in_int64_iff.
  destruct ((y =? 0) || (x =? 0)) eqn:E0; [done|].
  destruct ((x <? 0) && (y <? 0)) eqn:E1;
    [|destruct ((y <? 0) && (x >? 0)) eqn:E2].
  - destruct (Z.eq_dec x (- 2 ^ 63)) as [->|Hmin].
    + intros [= <- <-]. split; [done|]. split; [done|].
      unfold mult_measure. rewrite E0, E1. reflexivity.
    + assert (Ha : Np.wrap64 (Z.abs x) = - x)
        by (rewrite wrap64_id; [lia|apply in_int64_iff; lia]).
      rewrite Ha.
      assert (Ha1 : Np.wrap64 (- x - 1) = - x - 1)
        by (apply wrap64_id, in_int64_iff; lia).
      rewrite Ha1. intros [= <- <-].
      split; [apply in_int64_iff; lia|]. split; [apply in_int64_iff; lia|].
      unfold mult_measure.
      repeat match goal with
        | |- context [if ?b then _ else _] => destruct b eqn:?; try lia
        end.
  - assert (Ha1 : Np.wrap64 (x - 1) = x - 1)
      by (apply wrap64_id, in_int64_iff; lia).
    rewrite Ha1. intros [= <- <-].
    split; [done|]. split; [apply in_int64_iff; lia|].
    unfold mult_measure.
    repeat match goal with
      | |- context [if ?b then _ else _] => destruct b eqn:?; try lia
      end.
  - assert (Ha1 : Np.wrap64 (y - 1) = y - 1)
      by (apply wrap64_id, in_int64_iff; lia).
    rewrite Ha1. intros [= <- <-].
    split; [done|]. split; [apply in_int64_iff; lia|].
    unfold mult_measure.
    repeat match goal with
      | |- context [if ?b then _ else _] => destruct b eqn:?; try lia
      end.
Qed.

(** C2. The claim asks [mult(-5, -27) = 135]; the code returns 25, both
    when called on Python integers and through the evaluator (as the run
    recorded at the end of the source file shows): the branch for two
    negative operands takes both absolute values from [x]. *)
Theorem mult_neg_neg_returns_square :
  mult (H := py_int) 1000 (-5) (-27) = Ok 25 /\
  RpnCalculator.eval 1000 "-5 -27 *" = Ok 25.
Proof. split; vm_compute; reflexivity. Qed.

(** C10. [mult] terminates on all integers. [mult_measure] is
    non-negative. On Python integers the recursive call is made on
    operands of strictly smaller measure, and with at least two more
    levels of recursion than the measure (one for the last call, one for
    the comparisons in it) the call returns a value. The same holds on the
    [np.int64] operands that the evaluator passes. *)
Theorem mult_terminates (x y : Z) :
  0 <= mult_measure x y /\
  (forall x' y', mult_call (H := py_int) x y = Some (x', y') ->
                 mult_measure x' y' < mult_measure x y) /\
  (forall depth, mult_measure x y < Z.of_nat depth - 1 ->
                 exists v, mult (H := py_int) depth x y = Ok v) /\
  (forall x' y', Np.in_int64 x = true -> Np.in_int64 y = true ->
                 mult_call (H := np_int64) x y = Some (x', y') ->
                 mult_measure x' y' < mult_measure x y) /\
  (forall depth, Np.in_int64 x = true -> Np.in_int64 y = true ->
                 mult_measure x y < Z.of_nat depth - 1 ->
                 exists v, mult (H := np_int64) depth x y = Ok v).
Proof.
  split; [apply mult_measure_nonneg|]. split; [|split; [|split]].
  - intros x' y'. unfold mult_call, mult_measure. simpl.
    destruct ((y =? 0) || (x =? 0)) eqn:E0; [done|].
    destruct ((x <? 0) && (y <? 0)) eqn:E1;
      [|destruct ((y <? 0) && (x >? 0)) eqn:E2];
      intros [= <- <-];
      repeat match goal with
        | |- context [if ?b then _ else _] => destruct b eqn:?; try lia
        end.
  - intros depth Hd. rewrite mult_py_value by done. eauto.
  - intros x' y' Hx Hy Hcall.
    by destruct (mult_call_np_decreases x y x' y' Hx Hy Hcall) as (_ & _ & ?).
  - intros depth. apply mult_np_returns.
Qed.

(** ** Tokens: [str], [int] and [split] *)

Ltac digit_value_eval :=
  unfold Py.digit_value;
  match goal with
  | |- context [Z.of_nat (nat_of_ascii ?c)] =>
      let v := eval vm_compute in (Z.of_nat (nat_of_ascii c)) in
      change (Z.of_nat (nat_of_ascii c)) with v
  end.

Lemma int_digits_acc d (acc : positive) :
  Py.int_digits (Z.pos acc) (NilEmpty.string_of_uint d) =
    Some (Z.pos (Pos.of_uint_acc d acc)).
Proof.
  revert acc. induction d; intros acc; simpl; [done|..];
    match goal with
    | |- Py.int_digits ?a _ = Some (Z.pos (Pos.of_uint_acc _ ?b)) =>
        replace a with (Z.pos b) by (digit_value_eval; lia)
    end; apply IHd.
Qed.

Lemma int_digits_zero d :
  Py.int_digits 0 (NilEmpty.string_of_uint d) = Some (Z.of_N (Pos.of_uint d)).
Proof.
  induction d; simpl; [done|exact IHd|..];
    rewrite <- int_digits_acc; reflexivity.
Qed.

Lemma int_unsigned_uint d :
  d <> Nil ->
  Py.int_unsigned (NilEmpty.string_of_uint d) = Some (Z.of_uint d).
Proof.
  intros Hd. unfold Z.of_uint.
  destruct d; simpl; [done|apply int_digits_zero|..];
    rewrite <- int_digits_acc; reflexivity.
Qed.

Lemma to_uint_not_nil p : Pos.to_uint p <> Nil.
Proof.
  intros E. pose proof (DecimalPos.Unsigned.of_to p) as H.
  rewrite E in H. discriminate.
Qed.

Lemma int_unsigned_pos p :
  Py.int_unsigned (NilEmpty.string_of_uint (Pos.to_uint p)) = Some (Z.pos p).
Proof.
  rewrite int_unsigned_uint by apply to_uint_not_nil.
  unfold Z.of_uint. by rewrite DecimalPos.Unsigned.of_to.
Qed.

Lemma string_of_uint_pos p :
  NilZero.string_of_uint (Pos.to_uint p) =
    NilEmpty.string_of_uint (Pos.to_uint p).
Proof.
  pose proof (to_uint_not_nil p). by destruct (Pos.to_uint p).
Qed.

Lemma int_unsigned_sign_free s v :
  Py.int_unsigned s = Some v -> Py.int_literal s = Py.int_unsigned s.
Proof.
  destruct s as [|c s']; [done|]. unfold Py.int_literal, Py.int_unsigned.
  destruct (Ascii.eqb c "-") eqn:E1; [apply Ascii.eqb_eq in E1; by subst|].
  destruct (Ascii.eqb c "+") eqn:E2; [apply Ascii.eqb_eq in E2; by subst|].
  done.
Qed.

Lemma int_literal_str n : Py.int_literal (Py.str n) = Some n.
Proof.
  destruct n as [|p|p]; [done|..]; unfold Py.str; simpl.
  - rewrite string_of_uint_pos.
    rewrite (int_unsigned_sign_free _ _ (int_unsigned_pos p)).
    apply int_unsigned_pos.
  - rewrite string_of_uint_pos, int_unsigned_pos. done.
Qed.

Lemma no_space_uint d : no_space (NilEmpty.string_of_uint d) = true.
Proof. induction d; simpl; done. Qed.

Lemma no_space_str n : no_space (Py.str n) = true.
Proof.
  destruct n as [|p|p]; [done|..]; unfold Py.str; simpl;
    rewrite string_of_uint_pos; [|simpl]; apply no_space_uint.
Qed.

Lemma int_space_is_space c : Py.is_int_space c = true -> Py.is_space c = true.
Proof. unfold Py.is_int_space, Py.is_space. lia. Qed.

Lemma lstrip_no_space s : no_space s = true -> Py.lstrip s = s.
Proof.
  destruct s as [|c s]; [done|]. simpl. intros [Hc _]%andb_true_iff.
  destruct (Py.is_int_space c) eqn:E; [|done].
  apply int_space_is_space in E. by rewrite E in Hc.
Qed.

Lemma rstrip_no_space s : no_space s = true -> Py.rstrip s = s.
Proof.
  induction s as [|c s IH]; [done|]. simpl. intros [Hc Hs]%andb_true_iff.
  rewrite (IH Hs). destruct (Py.is_int_space c) eqn:E; [|done].
  apply int_space_is_space in E. by rewrite E in Hc.
Qed.

(** On a string without white space [int] reads the literal as it is. *)
Lemma int_no_space s : no_space s = true -> Py.int s = Py.int_literal s.
Proof.
  intros Hs. unfold Py.int. by rewrite lstrip_no_space, rstrip_no_space.
Qed.

(** [int(str(n)) == n] *)
Lemma int_str n : Py.int (Py.str n) = Some n.
Proof. rewrite int_no_space by apply no_space_str. apply int_literal_str. Qed.

Lemma str_not_empty n : Py.str n <> "".
Proof.
  intros E. pose proof (int_str n) as H. rewrite E in H. done.
Qed.

Lemma append_nil (s : string) : "" +:+ s = s.
Proof. reflexivity. Qed.

Lemma append_cons c (s1 s2 : string) :
  String c s1 +:+ s2 = String c (s1 +:+ s2).
Proof. reflexivity. Qed.

Lemma string_app_assoc (s1 s2 s3 : string) :
  (s1 +:+ s2) +:+ s3 = s1 +:+ (s2 +:+ s3).
Proof.
  induction s1; rewrite ?append_nil, ?append_cons; congruence.
Qed.

Lemma string_app_empty_r (s : string) : s +:+ "" = s.
Proof. induction s; rewrite ?append_nil, ?append_cons; congruence. Qed.

Lemma split_from_app tok s rest :
  no_space s = true ->
  Py.split_from tok (s +:+ rest) = Py.split_from (tok +:+ s) rest.
Proof.
  revert tok. induction s as [|c s IH]; intros tok Hs.
  - by rewrite append_nil, string_app_empty_r.
  - simpl in Hs. apply andb_true_iff in Hs as [Hc Hs].
    apply negb_true_iff in Hc. rewrite append_cons. simpl.
    rewrite Hc, IH by done.
    by rewrite string_app_assoc, append_cons, append_nil.
Qed.

Lemma split_from_token s rest :
  no_space s = true -> s <> "" ->
  Py.split_from "" (s +:+ " " +:+ rest) = s :: Py.split_from "" rest.
Proof.
  intros Hs Hne. rewrite split_from_app by done.
  rewrite append_nil, append_cons, append_nil. simpl.
  destruct (String.eqb s "") eqn:E; [by apply String.eqb_eq in E|done].
Qed.

Lemma split_from_last s :
  no_space s = true -> s <> "" -> Py.split_from "" s = [s].
Proof.
  intros Hs Hne. rewrite <- (string_app_empty_r s) at 1.
  rewrite split_from_app by done. rewrite append_nil. simpl.
  destruct (String.eqb s "") eqn:E; [by apply String.eqb_eq in E|done].
Qed.

Lemma parse_binary_expression a b op :
  no_space op = true -> op <> "" ->
  parse (binary_expression a b op) = [Py.str a; Py.str b; op].
Proof.
  intros Hop Hne. unfold parse, Py.split, binary_expression.
  rewrite split_from_token by (apply no_space_str || apply str_not_empty).
  rewrite split_from_token by (apply no_space_str || apply str_not_empty).
  by rewrite split_from_last.
Qed.

(** ** The evaluator *)

Lemma init_my_stack : __init__ 1 1000 = Ok my_stack0.
Proof. by apply init_ok. Qed.

Lemma my_stack0_inv : stack_inv my_stack0.
Proof. by apply fresh_inv. Qed.

Lemma eval_loop_cons depth token tokens self :
  eval_loop depth (token :: tokens) self =
    match eval_token depth token self with
    | (Ok _, self') => eval_loop depth tokens self'
    | (Raise e, self') => (Raise e, self')
    end.
Proof. reflexivity. Qed.

Lemma eval_tokens_unfold depth tokens :
  eval_tokens depth tokens =
    match eval_loop depth tokens my_stack0 with
    | (Ok _, my_stack) => fst (eval_finish my_stack)
    | (Raise e, _) => Raise e
    end.
Proof.
  unfold eval_tokens. rewrite init_my_stack. simpl. unfold bind.
  by destruct (eval_loop depth tokens my_stack0) as [[[]|e] s].
Qed.

Lemma pop_two self l a b :
  stack_inv self -> contents self = l ++ [a; b] ->
  exists s2,
    stack_inv s2 /\ capacity s2 = capacity self /\
    top_of_stack s2 = top_of_stack self - 2 /\ contents s2 = l /\
    forall A (k : Z -> Z -> M A),
      (right_arg <- pop ;; left_arg <- pop ;; k left_arg right_arg) self =
        k a b s2.
Proof.
  intros Hinv Hc.
  destruct (pop_ok self (l ++ [a]) b Hinv) as (s1 & Hp1 & Hi1 & Hk1 & Ht1 & Hc1).
  { by rewrite Hc, <- app_assoc. }
  destruct (pop_ok s1 l a Hi1 Hc1) as (s2 & Hp2 & Hi2 & Hk2 & Ht2 & Hc2).
  exists s2.
  split; [done|split; [congruence|split; [lia|split; [done|]]]].
  intros A k. unfold bind. by rewrite Hp1, Hp2.
Qed.

Lemma contents_in_int64 self :
  stack_inv self -> Forall (fun v => Np.in_int64 v = true) (contents self).
Proof. intros [_ _ Hr]. unfold contents. by apply Forall_take. Qed.

Lemma operands_in_int64 self l a b :
  stack_inv self -> contents self = l ++ [a; b] ->
  Np.in_int64 a = true /\ Np.in_int64 b = true.
Proof.
  intros Hinv Hc. pose proof (contents_in_int64 _ Hinv) as H.
  rewrite Hc in H. apply Forall_app in H as [_ H].
  apply Forall_cons in H as [Ha H]. apply Forall_cons in H as [Hb _]. done.
Qed.

(** An operator token whose operation pushes [v]: the two operands are
    replaced by [v]. *)
Lemma binary_step self l a b v (k : Z -> Z -> M unit) :
  stack_inv self -> contents self = l ++ [a; b] ->
  Np.in_int64 v = true ->
  (forall s2, k a b s2 = push v s2) ->
  exists self',
    (right_arg <- pop ;; left_arg <- pop ;; k left_arg right_arg) self =
      (Ok tt, self') /\
    stack_inv self' /\ capacity self' = capacity self /\
    contents self' = l ++ [v].
Proof.
  intros Hinv Hc Hv Hstep.
  pose proof (contents_length _ Hinv) as Hn. rewrite Hc in Hn.
  rewrite length_app in Hn. simpl in Hn.
  destruct (pop_two self l a b Hinv Hc) as (s2 & Hi2 & Hk2 & Ht2 & Hc2 & Hp).
  destruct (push_ok s2 v Hi2) as (s3 & Hp3 & Hi3 & Hk3 & Ht3 & Hc3);
    [destruct Hinv; lia|done|].
  exists s3. rewrite (Hp _ k), Hstep, Hp3.
  split; [done|split; [done|split; congruence]].
Qed.

Lemma eval_token_operand depth token n self :
  Py.int token = Some n -> eval_token depth token self = push n self.
Proof. intros H. unfold eval_token. by rewrite H. Qed.

Lemma eval_token_add depth self l a b :
  stack_inv self -> contents self = l ++ [a; b] ->
  exists self',
    eval_token depth ADDITION self = (Ok tt, self') /\
    stack_inv self' /\ capacity self' = capacity self /\
    contents self' = l ++ [Np.wrap64 (a + b)].
Proof.
  intros Hinv Hc.
  apply (binary_step self l a b _ (operator_case depth ADDITION) Hinv Hc);
    [apply wrap64_in_int64|done].
Qed.

Lemma eval_token_sub depth self l a b :
  stack_inv self -> contents self = l ++ [a; b] ->
  exists self',
    eval_token depth SUBTRACTION self = (Ok tt, self') /\
    stack_inv self' /\ capacity self' = capacity self /\
    contents self' = l ++ [Np.wrap64 (a - b)].
Proof.
  intros Hinv Hc.
  apply (binary_step self l a b _ (operator_case depth SUBTRACTION) Hinv Hc);
    [apply wrap64_in_int64|done].
Qed.

Lemma floor_divide_in_int64 a b : Np.in_int64 (Np.floor_divide a b) = true.
Proof.
  unfold Np.floor_divide. destruct (b =? 0); [done|apply wrap64_in_int64].
Qed.

Lemma eval_token_floor depth self l a b :
  stack_inv self -> contents self = l ++ [a; b] ->
  exists self',
    eval_token depth FLOOR self = (Ok tt, self') /\
    stack_inv self' /\ capacity self' = capacity self /\
    contents self' = l ++ [Np.floor_divide a b].
Proof.
  intros Hinv Hc.
  apply (binary_step self l a b _ (operator_case depth FLOOR) Hinv Hc);
    [apply floor_divide_in_int64|done].
Qed.

Lemma eval_token_mult depth self l a b :
  stack_inv self -> contents self = l ++ [a; b] ->
  ~ (a < 0 /\ b < 0) -> mult_measure a b < Z.of_nat depth - 1 ->
  exists self',
    eval_token depth MULTIPLICATION self = (Ok tt, self') /\
    stack_inv self' /\ capacity self' = capacity self /\
    contents self' = l ++ [Np.wrap64 (a * b)].
Proof.
  intros Hinv Hc Hnn Hd.
  destruct (operands_in_int64 _ _ _ _ Hinv Hc) as [Ha Hb].
  apply (binary_step self l a b _ (operator_case depth MULTIPLICATION) Hinv Hc);
    [apply wrap64_in_int64|].
  intros s2. simpl. unfold bind, lift. by rewrite mult_np_value.
Qed.

Lemma push_overflow self v :
  stack_inv self -> top_of_stack self < capacity self ->
  Np.in_int64 v = false ->
  push v self = (Raise OverflowError, self).
Proof.
  intros [Ht Hl Hr] Hlt Hv. unfold push, is_full, Np.setitem.
  destruct (top_of_stack self =? capacity self) eqn:E; [lia|].
  rewrite position_in_range by lia. by rewrite Hv.
Qed.

Lemma eval_token_inv depth token self r self' :
  stack_inv self -> eval_token depth token self = (r, self') ->
  stack_inv self' /\ capacity self' = capacity self.
Proof.
  intros Hinv. unfold eval_token.
  destruct (Py.int token) as [n|]; [apply push_inv; done|].
  unfold bind.
  destruct (pop self) as [[right_arg|e] s1] eqn:Hp1;
    destruct (pop_inv _ _ _ Hinv Hp1) as [Hi1 Hk1];
    [|intros [= <- <-]; done].
  destruct (pop s1) as [[left_arg|e] s2] eqn:Hp2;
    destruct (pop_inv _ _ _ Hi1 Hp2) as [Hi2 Hk2];
    [|intros [= <- <-]; split; [done|congruence]].
  assert (Hpush : forall v r self',
             push v s2 = (r, self') ->
             stack_inv self' /\ capacity self' = capacity self).
  { intros v r0 s3 H3. destruct (push_inv _ _ _ _ Hi2 H3). split; [done|].
    congruence. }
  destruct (String.eqb token ADDITION); [apply Hpush|].
  destruct (String.eqb token SUBTRACTION); [apply Hpush|].
  destruct (String.eqb token FLOOR); [apply Hpush|].
  destruct (String.eqb token MULTIPLICATION).
  - unfold lift. destruct (mult depth left_arg right_arg); [apply Hpush|].
    intros [= <- <-]. split; [done|congruence].
  - unfold raise. intros [= <- <-]. split; [done|congruence].
Qed.

Lemma eval_loop_inv depth tokens self r self' :
  stack_inv self -> eval_loop depth tokens self = (r, self') ->
  stack_inv self' /\ capacity self' = capacity self.
Proof.
  revert self. induction tokens as [|token tokens IH]; intros self Hinv.
  - simpl. unfold ret. by intros [= <- <-].
  - rewrite eval_loop_cons.
    destruct (eval_token depth token self) as [[[]|e] s1] eqn:H1;
      destruct (eval_token_inv _ _ _ _ _ Hinv H1) as [Hi1 Hk1].
    + intros H. destruct (IH _ Hi1 H). split; [done|congruence].
    + by intros [= <- <-].
Qed.

Lemma eval_finish_empty self :
  top_of_stack self = 0 -> eval_finish self = (Raise StackUnderflow, self).
Proof.
  intros Ht. unfold eval_finish, pop, is_empty. rewrite Ht. done.
Qed.

Lemma eval_finish_one self :
  stack_inv self -> top_of_stack self = 1 ->
  exists v self', contents self = [v] /\ eval_finish self = (Ok v, self').
Proof.
  intros Hinv Ht.
  destruct (contents_snoc self Hinv) as (l & v & Hc); [lia|].
  pose proof (contents_length _ Hinv) as Hn.
  rewrite Hc, length_app, Ht in Hn. simpl in Hn.
  destruct l; [|simpl in Hn; lia]. simpl in Hc.
  destruct (pop_ok self [] v Hinv Hc) as (s & Hs & _).
  exists v, s. split; [done|]. unfold eval_finish. rewrite Ht. done.
Qed.

Lemma eval_finish_many self :
  2 <= top_of_stack self ->
  eval_finish self = (Raise MalformedExpression, self).
Proof.
  intros Ht. unfold eval_finish.
  destruct (top_of_stack self / 2 =? 0) eqn:E; [|done].
  apply Z.eqb_eq in E.
  pose proof (Z.div_le_mono 2 (top_of_stack self) 2 ltac:(lia) Ht) as H.
  rewrite Z.div_same in H by lia. lia.
Qed.

Lemma eval_tokens_in_int64 depth tokens v :
  eval_tokens depth tokens = Ok v -> Np.in_int64 v = true.
Proof.
  rewrite eval_tokens_unfold.
  destruct (eval_loop depth tokens my_stack0) as [[[]|e] s] eqn:Hl; [|done].
  destruct (eval_loop_inv _ _ _ _ _ my_stack0_inv Hl) as [Hinv _].
  pose proof (inv_top _ Hinv) as Ht.
  destruct (decide (top_of_stack s = 0)) as [H0|H0].
  { by rewrite eval_finish_empty. }
  destruct (decide (top_of_stack s = 1)) as [H1|H1].
  - destruct (eval_finish_one s Hinv H1) as (w & s' & Hc & Hf).
    rewrite Hf. simpl. intros [= <-].
    pose proof (contents_in_int64 _ Hinv) as Hr. rewrite Hc in Hr.
    by apply Forall_cons in Hr as [Hr _].
  - rewrite eval_finish_many by lia. done.
Qed.

(** Evaluation of two operand tokens followed by an operator token that
    replaces them by [v]. *)
Lemma eval_binary depth a b op v :
  Np.in_int64 a = true -> Np.in_int64 b = true ->
  no_space op = true -> op <> "" ->
  (forall self, stack_inv self -> contents self = [a; b] ->
     exists self', eval_token depth op self = (Ok tt, self') /\
                   stack_inv self' /\ capacity self' = capacity self /\
                   contents self' = [v]) ->
  RpnCalculator.eval depth (binary_expression a b op) = Ok v.
Proof.
  intros Ha Hb Hop Hne Hstep. unfold RpnCalculator.eval.
  rewrite parse_binary_expression by done.
  rewrite eval_tokens_unfold.
  destruct (push_ok my_stack0 a my_stack0_inv)
    as (s1 & Hp1 & Hi1 & Hk1 & Ht1 & Hc1); [done|done|].
  destruct (push_ok s1 b Hi1)
    as (s2 & Hp2 & Hi2 & Hk2 & Ht2 & Hc2); [rewrite Hk1, Ht1; done|done|].
  rewrite Hc1 in Hc2. simpl in Hc2.
  destruct (Hstep s2 Hi2 Hc2) as (s3 & Hp3 & Hi3 & Hk3 & Hc3).
  pose proof (contents_length _ Hi3) as Hn. rewrite Hc3 in Hn. simpl in Hn.
  destruct (eval_finish_one s3 Hi3) as (w & s4 & Hc4 & Hf); [lia|].
  rewrite eval_loop_cons, (eval_token_operand _ _ _ _ (int_str a)), Hp1.
  cbv beta iota.
  rewrite eval_loop_cons, (eval_token_operand _ _ _ _ (int_str b)), Hp2.
  cbv beta iota.
  rewrite eval_loop_cons, Hp3. cbv beta iota.
  change (eval_loop depth [] s3) with (Ok tt, s3). cbv beta iota.
  rewrite Hf. simpl. congruence.
Qed.

(** ** Claims about the evaluator *)

(** C1, as the code has it. For operands [a] and [b] in the signed 64-bit
    range, evaluating the expression "a b OP" succeeds and returns the
    result of OP with [a] on the left and [b] on the right, reduced to 64
    bits (so the exact result whenever that lies in the 64-bit range): for
    [+] and [-] always; for [*] when the operands are not both negative and
    at least [mult_measure a b + 2] levels of recursion are left; for [//]
    when [b] is not zero. *)
Theorem eval_binary_expression (depth : nat) (a b : Z) :
  Np.in_int64 a = true -> Np.in_int64 b = true ->
  RpnCalculator.eval depth (binary_expression a b "+")
    = Ok (Np.wrap64 (a + b)) /\
  RpnCalculator.eval depth (binary_expression a b "-")
    = Ok (Np.wrap64 (a - b)) /\
  (~ (a < 0 /\ b < 0) -> mult_measure a b < Z.of_nat depth - 1 ->
   RpnCalculator.eval depth (binary_expression a b "*")
     = Ok (Np.wrap64 (a * b))) /\
  (b <> 0 ->
   RpnCalculator.eval depth (binary_expression a b "//")
     = Ok (Np.wrap64 (a / b))) /\
  (forall r, Np.in_int64 r = true -> Np.wrap64 r = r).
Proof.
  intros Ha Hb. repeat apply conj.
  - apply eval_binary; try done.
    intros self Hinv Hc. by apply (eval_token_add depth self []).
  - apply eval_binary; try done.
    intros self Hinv Hc. by apply (eval_token_sub depth self []).
  - intros Hnn Hd. apply eval_binary; try done.
    intros self Hinv Hc. by apply (eval_token_mult depth self []).
  - intros Hnz. apply eval_binary; try done.
    intros self Hinv Hc.
    destruct (eval_token_floor depth self [] a b Hinv Hc) as (s & H).
    exists s. revert H. unfold Np.floor_divide.
    destruct (b =? 0) eqn:E; [lia|done].
  - apply wrap64_id.
Qed.

Lemma eval_binary_expression_witness :
  Np.in_int64 15 = true /\ Np.in_int64 (-5) = true /\
  RpnCalculator.eval 1000 (binary_expression 15 (-5) "+") = Ok 10 /\
  RpnCalculator.eval 1000 (binary_expression 15 (-5) "-") = Ok 20 /\
  RpnCalculator.eval 1000 (binary_expression 15 (-5) "*") = Ok (-75) /\
  RpnCalculator.eval 1000 (binary_expression 15 (-5) "//") = Ok (-3).
Proof.
  destruct (eval_binary_expression 1000 15 (-5) eq_refl eq_refl)
    as (Hadd & Hsub & Hmul & Hdiv & _).
  split; [reflexivity|]. split; [reflexivity|].
  split; [exact Hadd|]. split; [exact Hsub|].
  split; [apply Hmul; [lia|reflexivity]|apply Hdiv; lia].
Defined.

(** C1 as stated fails: with [a = 2^63 - 1] and [b = 1] the sum wraps
    around to [-2^63], and with [a = 2^63] the first push raises
    [OverflowError]; no recursion depth makes the evaluation return
    [a + b]. Besides, with the 1000 frames of CPython's default limit,
    "2 5000 *" ends in [RecursionError]. *)
Lemma eval_binary_expression_counterexample :
  RpnCalculator.eval 1000 (binary_expression 9223372036854775807 1 "+")
    = Ok (-9223372036854775808) /\
  RpnCalculator.eval 1000 (binary_expression 9223372036854775808 1 "+")
    = Raise OverflowError /\
  RpnCalculator.eval 1000 (binary_expression 2 5000 "*")
    = Raise RecursionError /\
  ~ (forall a b : Z, exists depth,
       RpnCalculator.eval depth (binary_expression a b "+") = Ok (a + b)).
Proof.
  split; [vm_compute; reflexivity|]. split; [vm_compute; reflexivity|].
  split; [vm_compute; reflexivity|].
  intros H. destruct (H 9223372036854775807 1) as [depth Hd].
  vm_compute in Hd. discriminate.
Qed.

(** C3, as the code has it. When the loop over the tokens completes
    without an exception, the stack size is not negative and [eval_tokens]
    succeeds exactly when the size is 1, returning the one value; with two
    or more values left it raises the "Not enough operator" [IndexError]
    (MalformedExpression); with an empty stack the final [pop] raises the
    "Pop failed" [IndexError] (StackUnderflow). *)
Theorem eval_tokens_final_check
    (depth : nat) (tokens : list string) (my_stack my_stack' : MyStack.t) :
  __init__ 1 1000 = Ok my_stack ->
  eval_loop depth tokens my_stack = (Ok tt, my_stack') ->
  0 <= top_of_stack my_stack' /\
  ((exists v, eval_tokens depth tokens = Ok v)
   <-> top_of_stack my_stack' = 1) /\
  (top_of_stack my_stack' = 1 ->
   exists v, contents my_stack' = [v] /\ eval_tokens depth tokens = Ok v) /\
  (top_of_stack my_stack' >= 2 ->
   eval_tokens depth tokens = Raise MalformedExpression) /\
  (top_of_stack my_stack' = 0 ->
   eval_tokens depth tokens = Raise StackUnderflow).
Proof.
  rewrite init_my_stack. intros [= <-] Hl.
  destruct (eval_loop_inv _ _ _ _ _ my_stack0_inv Hl) as [Hinv _].
  pose proof (inv_top _ Hinv) as Ht.
  rewrite eval_tokens_unfold, Hl.
  assert (H1 : top_of_stack my_stack' = 1 ->
               exists v, contents my_stack' = [v] /\
                         (eval_finish my_stack').1 = Ok v).
  { intros H. destruct (eval_finish_one _ Hinv H) as (v & s & Hc & Hf).
    exists v. by rewrite Hf. }
  assert (H2 : top_of_stack my_stack' >= 2 ->
               (eval_finish my_stack').1 = Raise MalformedExpression).
  { intros H. by rewrite eval_finish_many by lia. }
  assert (H0 : top_of_stack my_stack' = 0 ->
               (eval_finish my_stack').1 = Raise StackUnderflow).
  { intros H. by rewrite eval_finish_empty. }
  split; [lia|]. split; [|done]. split.
  - intros [v Hv].
    destruct (decide (top_of_stack my_stack' = 1)) as [|Hne]; [done|].
    destruct (decide (top_of_stack my_stack' = 0)) as [Hz|Hnz].
    + rewrite H0 in Hv; done.
    + rewrite H2 in Hv by lia. done.
  - intros H. destruct (H1 H) as (v & _ & Hv). eauto.
Qed.

Lemma eval_tokens_final_check_witness :
  exists my_stack my_stack',
    __init__ 1 1000 = Ok my_stack /\
    eval_loop 1000 ["15"; "5"; "+"] my_stack = (Ok tt, my_stack') /\
    top_of_stack my_stack' = 1 /\
    eval_tokens 1000 ["15"; "5"; "+"] = Ok 20.
Proof.
  exists my_stack0.
  exists (snd (eval_loop 1000 ["15"; "5"; "+"] my_stack0)).
  assert (Hi : __init__ 1 1000 = Ok my_stack0) by reflexivity.
  assert (Hl : eval_loop 1000 ["15"; "5"; "+"] my_stack0 =
               (Ok tt, snd (eval_loop 1000 ["15"; "5"; "+"] my_stack0)))
    by (vm_compute; reflexivity).
  split; [exact Hi|]. split; [exact Hl|]. split; [reflexivity|].
  destruct (eval_tokens_final_check 1000 ["15"; "5"; "+"] _ _ Hi Hl)
    as (_ & _ & H1 & _).
  destruct (H1 eq_refl) as (v & Hc & Hv). rewrite Hv. f_equal.
  vm_compute in Hc. congruence.
Defined.

(** C3 as stated fails on the empty token sequence: the loop completes,
    the stack size is 0, which differs from 1, and the exception is the
    "Pop failed" [IndexError], not the "Not enough operator" one. *)
Lemma eval_tokens_final_check_counterexample :
  eval_tokens 1000 [] = Raise StackUnderflow /\
  ~ (forall depth tokens my_stack my_stack',
       __init__ 1 1000 = Ok my_stack ->
       eval_loop depth tokens my_stack = (Ok tt, my_stack') ->
       top_of_stack my_stack' <> 1 ->
       eval_tokens depth tokens = Raise MalformedExpression).
Proof.
  split; [vm_compute; reflexivity|].
  intros H.
  specialize (H 1000%nat [] my_stack0 my_stack0 init_my_stack eq_refl).
  assert (Hf : eval_tokens 1000 [] = Raise MalformedExpression)
    by (apply H; vm_compute; discriminate).
  vm_compute in Hf. discriminate.
Qed.

(** C6, as the code has it. With [left_arg] and [right_arg] the two values
    on top of the stack, the token [//] replaces them by one value and
    raises nothing: the floor of [left_arg / right_arg] (rounded toward
    minus infinity, so [-7 // 2] gives [-4]) when [right_arg] is not zero
    and the operands are not [-2^63] and [-1]; and [0] when [right_arg] is
    zero. *)
Theorem floor_token
    (depth : nat) (self : MyStack.t) (l : list Z) (left_arg right_arg : Z) :
  stack_inv self ->
  contents self = l ++ [left_arg; right_arg] ->
  exists v self',
    eval_token depth FLOOR self = (Ok tt, self') /\
    stack_inv self' /\
    contents self' = l ++ [v] /\
    (right_arg <> 0 -> ~ (left_arg = - 2 ^ 63 /\ right_arg = -1) ->
     v = left_arg / right_arg) /\
    (right_arg = 0 -> v = 0) /\
    (left_arg = -7 -> right_arg = 2 -> v = -4).
Proof.
  intros Hinv Hc.
  destruct (operands_in_int64 _ _ _ _ Hinv Hc) as [Ha%in_int64_iff Hb%in_int64_iff].
  destruct (eval_token_floor depth self l _ _ Hinv Hc) as (s & Hs & Hi & _ & Hcs).
  exists (Np.floor_divide left_arg right_arg), s.
  split; [done|]. split; [done|]. split; [done|].
  unfold Np.floor_divide. split; [|split].
  - intros Hnz Hmin. destruct (right_arg =? 0) eqn:E; [lia|].
    apply wrap64_id, in_int64_iff.
    destruct (Z_lt_le_dec right_arg 0) as [Hneg|Hpos].
    + destruct (Z.eq_dec right_arg (-1)) as [->|Hm1].
      * replace (left_arg / -1) with (- left_arg)
          by (rewrite <- (Z.opp_involutive left_arg) at 2;
              change (-1) with (- (1)); rewrite Zdiv_opp_opp, Z.div_1_r; lia).
        lia.
      * pose proof (Zdiv_opp_opp left_arg right_arg) as Ho.
        rewrite <- Ho.
        destruct (Z_lt_le_dec left_arg 0) as [Hl|Hl].
        -- assert (0 <= - left_arg / - right_arg <= - left_arg).
           { split; [apply Z.div_pos; lia|].
             apply Z.div_le_upper_bound; nia. }
           assert (- left_arg / - right_arg <= (- left_arg) / 2).
           { apply Z.div_le_compat_l; lia. }
           assert ((- left_arg) / 2 <= 2 ^ 62).
           { apply Z.div_le_upper_bound; lia. }
           lia.
        -- assert (Hq : - left_arg / - right_arg <= 0).
           { apply Z.div_le_upper_bound; [lia|]. lia. }
           assert (Hq' : - left_arg - (- right_arg) <
                         - right_arg * (- left_arg / - right_arg)).
           { pose proof (Z.mul_succ_div_gt (- left_arg) (- right_arg)
                           ltac:(lia)). lia. }
           nia.
    + assert (Hp : 0 < right_arg) by lia.
      destruct (Z_lt_le_dec left_arg 0) as [Hl|Hl].
      * assert (left_arg <= left_arg / right_arg).
        { apply Z.div_le_lower_bound; [lia|]. nia. }
        assert (left_arg / right_arg < 0).
        { apply Z.div_lt_upper_bound; lia. }
        lia.
      * assert (0 <= left_arg / right_arg) by (apply Z.div_pos; lia).
        assert (left_arg / right_arg <= left_arg).
        { apply Z.div_le_upper_bound; [lia|]. nia. }
        lia.
  - intros ->. done.
  - intros -> ->. reflexivity.
Qed.

Lemma floor_token_witness :
  let self := {| capacity := 3; default_item := 1;
                 stack := [-7; 2; 0]; top_of_stack := 2 |} in
  stack_inv self /\ contents self = [] ++ [-7; 2] /\
  exists self',
    eval_token 1000 FLOOR self = (Ok tt, self') /\ contents self' = [-4].
Proof.
  intros self.
  assert (Hinv : stack_inv self).
  { split; [simpl; lia|reflexivity|repeat constructor]. }
  assert (Hc : contents self = [] ++ [-7; 2]) by reflexivity.
  split; [exact Hinv|]. split; [exact Hc|].
  destruct (floor_token 1000 self [] (-7) 2 Hinv Hc)
    as (v & self' & Hstep & _ & Hc' & _ & _ & Hv).
  exists self'. split; [exact Hstep|].
  rewrite Hc', (Hv eq_refl eq_refl). reflexivity.
Defined.

(** C6 as stated fails for a zero divisor: evaluating "7 0 //" raises
    nothing and returns 0. *)
Lemma floor_token_counterexample :
  RpnCalculator.eval 1000 "7 0 //" = Ok 0 /\
  ~ (forall left_arg : Z, exists e,
       RpnCalculator.eval 1000 (binary_expression left_arg 0 "//") = Raise e).
Proof.
  split; [vm_compute; reflexivity|].
  intros H. destruct (H 7) as [e He]. vm_compute in He. discriminate.
Qed.

(** C7. The empty string splits into no token, the check after the loop
    lets the empty stack through, and the final [pop] raises the
    "Pop failed" [IndexError] (StackUnderflow), whatever the recursion
    depth available. *)
Theorem eval_empty_string (depth : nat) :
  parse "" = [] /\
  eval_loop depth [] my_stack0 = (Ok tt, my_stack0) /\
  top_of_stack my_stack0 / 2 = 0 /\
  RpnCalculator.eval depth "" = Raise StackUnderflow.
Proof.
  split; [reflexivity|]. split; [reflexivity|]. split; [reflexivity|].
  unfold RpnCalculator.eval. change (parse "") with (@nil string).
  rewrite eval_tokens_unfold. change (eval_loop depth [] my_stack0)
    with (Ok tt, my_stack0).
  cbv beta iota. by rewrite eval_finish_empty.
Qed.

(** C9. The stack stores signed 64-bit integers: an operand token outside
    that range makes the evaluation raise [OverflowError], which is none of
    the exceptions the stack and the evaluator raise themselves; every
    value an evaluation returns lies in the 64-bit range; and a sum that
    leaves the range comes back wrapped around. *)
Theorem int64_storage :
  (forall depth n, Np.in_int64 n = false ->
     RpnCalculator.eval depth (Py.str n) = Raise OverflowError) /\
  RpnCalculator.eval 1000 "9223372036854775808" = Raise OverflowError /\
  (forall capacity,
     ~ In OverflowError
         [InvalidCapacity capacity; StackOverflow; StackUnderflow;
          UnknownOperator; MalformedExpression]) /\
  (forall depth tokens v,
     eval_tokens depth tokens = Ok v -> Np.in_int64 v = true) /\
  (forall depth,
     RpnCalculator.eval depth "9223372036854775807 1 +"
       = Ok (-9223372036854775808)) /\
  9223372036854775807 + 1 <> -9223372036854775808.
Proof.
  split; [|split; [|split; [|split; [|split]]]].
  - intros depth n Hn. unfold RpnCalculator.eval, parse, Py.split.
    rewrite split_from_last by (apply no_space_str || apply str_not_empty).
    rewrite eval_tokens_unfold, eval_loop_cons.
    rewrite (eval_token_operand _ _ _ _ (int_str n)).
    rewrite push_overflow; [done|apply my_stack0_inv|done|done].
  - vm_compute. reflexivity.
  - intros capacity Hin. simpl in Hin.
    destruct Hin as [H|[H|[H|[H|[H|[]]]]]]; discriminate.
  - apply eval_tokens_in_int64.
  - intros depth.
    change "9223372036854775807 1 +"
      with (binary_expression 9223372036854775807 1 "+").
    change (-9223372036854775808)
      with (Np.wrap64 (9223372036854775807 + 1)).
    apply eval_binary; try done.
    intros self Hinv Hc. by apply (eval_token_add depth self []).
  - lia.
Qed.

(** * Further properties of [MyStack] *)

Lemma history_sound l self :
  history l self ->
  stack_inv self /\ contents self = l /\
  validate_capacity (capacity self) = true.
Proof.
  induction 1 as [d c self Hi
                 |l self self' _ (Hinv & Hc & Hv) Hop
                 |l self v self' _ (Hinv & Hc & Hv) Hop
                 |l self v self' _ (Hinv & Hc & Hv) Hop
                 |l self e self' _ (Hinv & Hc & Hv) Hop
                 |l self v e self' _ (Hinv & Hc & Hv) Hop
                 |l self e self' _ (Hinv & Hc & Hv) Hop].
  - destruct (init_inv _ _ _ Hi) as (Hinv & Hk & Hc).
    split; [done|]. split; [done|]. rewrite Hk.
    revert Hi. unfold __init__.
    by destruct (validate_capacity c).
  - destruct (clear_inv _ _ _ Hinv Hop) as [Hi' Hk].
    split; [done|]. split; [|by rewrite Hk].
    rewrite clear_ok in Hop by (destruct Hinv; lia). by injection Hop as <-.
  - destruct (push_ok_inv _ _ _ Hinv Hop) as [Hlt Hr].
    destruct (push_ok self v Hinv Hlt Hr) as (s & Hs & ? & Hk & _ & Hc').
    rewrite Hs in Hop. injection Hop as <-.
    split; [done|]. split; [by rewrite Hc', Hc|by rewrite Hk].
  - assert (Hpos : 0 < top_of_stack self).
    { destruct Hinv as [Ht _ _]. revert Hop. unfold pop, is_empty.
      destruct (top_of_stack self =? 0) eqn:E; [done|lia]. }
    destruct (contents_snoc self Hinv Hpos) as (l' & x & Hlx).
    destruct (pop_ok self l' x Hinv Hlx) as (s & Hs & ? & Hk & _ & Hc').
    rewrite Hs in Hop. injection Hop as _ <-.
    split; [done|]. split; [|by rewrite Hk].
    rewrite <- Hc, Hlx, removelast_last. done.
  - rewrite clear_ok in Hop by (destruct Hinv; lia). done.
  - apply push_failed_unchanged in Hop. by subst.
  - apply pop_failed_unchanged in Hop as [-> _]; done.
Qed.

(** X1. On a stack that is not full, pushing a 64-bit value and popping
    at once gives the value back; the stack has its size and its valid
    elements as before, and only the slot just above them has changed. *)
Theorem push_then_pop (self : MyStack.t) (v : Z) :
  stack_inv self -> top_of_stack self < capacity self ->
  Np.in_int64 v = true ->
  exists self',
    (push v ;;; pop) self = (Ok v, self') /\
    self' = {| capacity := capacity self;
               default_item := default_item self;
               stack := <[Z.to_nat (top_of_stack self) := v]> (stack self);
               top_of_stack := top_of_stack self |} /\
    contents self' = contents self.
Proof.
  intros Hinv Hlt Hv.
  destruct (push_ok self v Hinv Hlt Hv) as (s1 & Hp & Hi1 & Hk1 & Ht1 & Hc1).
  destruct (pop_ok s1 _ v Hi1 Hc1) as (s2 & Hq & Hi2 & Hk2 & Ht2 & Hc2).
  exists s2. unfold bind. rewrite Hp, Hq. split; [done|]. split; [|done].
  clear Hc1 Hc2 Hi1 Hi2 Hk1 Hk2 Ht1 Ht2. revert Hp Hq.
  destruct Hinv as [Ht Hl Hr]. unfold push, is_full, Np.setitem.
  destruct (top_of_stack self =? capacity self) eqn:E; [lia|].
  rewrite position_in_range by lia. rewrite Hv. intros [= <-].
  unfold pop, is_empty. simpl.
  destruct (top_of_stack self + 1 =? 0) eqn:E'; [lia|].
  intros [= _ <-]. f_equal. lia.
Qed.

Lemma push_then_pop_witness :
  let self := {| capacity := 3; default_item := 1;
                 stack := [5; 0; 0]; top_of_stack := 1 |} in
  (push 8 ;;; pop) self =
    (Ok 8, {| capacity := 3; default_item := 1;
              stack := [5; 8; 0]; top_of_stack := 1 |}).
Proof.
  intros self.
  assert (Hinv : stack_inv self).
  { split; [simpl; lia|reflexivity|repeat constructor]. }
  destruct (push_then_pop self 8 Hinv) as (s & Hs & -> & _);
    [reflexivity|reflexivity|].
  exact Hs.
Defined.

(** X2. On a stack that is not empty, popping and pushing the popped value
    back leaves the object exactly as it was. *)
Theorem pop_then_push (self : MyStack.t) :
  stack_inv self -> 0 < top_of_stack self ->
  exists v self',
    pop self = (Ok v, self') /\
    last (contents self) = Some v /\
    push v self' = (Ok tt, self).
Proof.
  intros Hinv Hpos.
  destruct (contents_snoc self Hinv Hpos) as (l & v & Hc).
  destruct (pop_ok self l v Hinv Hc) as (s1 & Hp & Hi1 & Hk1 & Ht1 & Hc1).
  exists v, s1. split; [done|]. split; [by rewrite Hc, last_snoc|].
  assert (Hv : Np.in_int64 v = true).
  { pose proof (contents_in_int64 _ Hinv) as H. rewrite Hc in H.
    apply Forall_app in H as [_ H]. by apply Forall_cons in H as [H _]. }
  revert Hp. destruct Hinv as [Ht Hl Hr]. unfold pop, is_empty, Np.getitem.
  destruct (top_of_stack self =? 0) eqn:E; [lia|]. simpl.
  rewrite position_in_range by lia.
  destruct (stack self !! Z.to_nat (top_of_stack self - 1)) as [w|] eqn:Hw;
    [|done].
  intros [= -> <-]. unfold push, is_full, Np.setitem. simpl.
  destruct (top_of_stack self - 1 =? capacity self) eqn:E'; [lia|].
  rewrite position_in_range by lia. rewrite Hv.
  rewrite list_insert_id by done.
  destruct self as [c d a t]. simpl in *. do 2 f_equal. lia.
Qed.

Lemma pop_then_push_witness :
  let self := {| capacity := 3; default_item := 1;
                 stack := [5; 8; 0]; top_of_stack := 2 |} in
  exists self', pop self = (Ok 8, self') /\ push 8 self' = (Ok tt, self).
Proof.
  intros self.
  assert (Hinv : stack_inv self).
  { split; [simpl; lia|reflexivity|repeat constructor]. }
  destruct (pop_then_push self Hinv) as (v & s & Hp & Hl & Hq);
    [reflexivity|].
  assert (v = 8) as -> by (vm_compute in Hl; congruence).
  exists s. split; [exact Hp|exact Hq].
Defined.

(** X3. After the constructor and any calls, [clear] succeeds and leaves
    exactly the object that the constructor builds from the same
    arguments: all slots zero, nothing on the stack. *)
Theorem clear_restores_new (l : list Z) (self : MyStack.t) :
  history l self ->
  exists self0,
    __init__ (default_item self) (capacity self) = Ok self0 /\
    clear self = (Ok tt, self0) /\
    contents self0 = [] /\
    stack self0 = replicate (Z.to_nat (capacity self)) 0.
Proof.
  intros H. destruct (history_sound _ _ H) as (Hinv & _ & Hv).
  eexists. split; [by apply init_ok|].
  split; [apply clear_ok; destruct Hinv; lia|]. done.
Qed.

Lemma clear_restores_new_witness :
  let self := {| capacity := 3; default_item := 1;
                 stack := [5; 0; 0]; top_of_stack := 1 |} in
  history [5] self /\
  clear self = (Ok tt, {| capacity := 3; default_item := 1;
                          stack := [0; 0; 0]; top_of_stack := 0 |}).
Proof.
  intros self.
  assert (H : history ([] ++ [5]) self).
  { eapply history_push; [apply (history_new 1 3); reflexivity|reflexivity]. }
  split; [exact H|].
  destruct (clear_restores_new _ _ H) as (s0 & Hi & Hc & _).
  rewrite Hc. f_equal. vm_compute in Hi. congruence.
Defined.

(** X4. After the constructor and any calls, [is_empty] holds exactly when
    no pushed value is left, [is_full] exactly when as many are left as
    the capacity, and [get_capacity] lies between 0 and [MAX_CAPACITY]
    and bounds the number of values on the stack. *)
Theorem queries_sound (l : list Z) (self : MyStack.t) :
  history l self ->
  (is_empty self = true <-> l = []) /\
  (is_full self = true <-> Z.of_nat (length l) = get_capacity self) /\
  Z.of_nat (length l) <= get_capacity self /\
  0 <= get_capacity self <= MAX_CAPACITY.
Proof.
  intros H. destruct (history_sound _ _ H) as (Hinv & Hc & Hv).
  pose proof (contents_length _ Hinv) as Hn. rewrite Hc in Hn.
  destruct Hinv as [Ht Hl Hr].
  unfold is_empty, is_full, get_capacity, validate_capacity in *.
  split; [|split; [|split]].
  - rewrite Z.eqb_eq. split.
    + intros Hz. destruct l; [done|]. simpl in Hn. lia.
    + intros ->. simpl in Hn. lia.
  - rewrite Z.eqb_eq. lia.
  - lia.
  - lia.
Qed.

Lemma queries_sound_witness :
  let self := {| capacity := 1; default_item := 1;
                 stack := [5]; top_of_stack := 1 |} in
  history [5] self /\ is_empty self = false /\ is_full self = true.
Proof.
  intros self.
  assert (H : history ([] ++ [5]) self).
  { eapply history_push; [apply (history_new 1 1); reflexivity|reflexivity]. }
  split; [exact H|].
  destruct (queries_sound _ _ H) as (_ & Hf & _).
  split; [reflexivity|]. apply Hf. reflexivity.
Defined.

(** X5. On a stack that satisfies the invariant, [push] succeeds exactly
    when the stack is not full and the value fits 64 bits; when it fails
    the object is unchanged and the exception is the "Push failed"
    [IndexError] if the stack is full, whatever the value, and
    [OverflowError] otherwise. *)
Theorem push_outcomes (self : MyStack.t) (v : Z) :
  stack_inv self ->
  ((exists self', push v self = (Ok tt, self'))
   <-> top_of_stack self < capacity self /\ Np.in_int64 v = true) /\
  (top_of_stack self = capacity self ->
   push v self = (Raise StackOverflow, self)) /\
  (top_of_stack self < capacity self -> Np.in_int64 v = false ->
   push v self = (Raise OverflowError, self)).
Proof.
  intros Hinv. split; [|split].
  - split.
    + intros [s Hs]. by apply (push_ok_inv self v s).
    + intros [Hlt Hv]. destruct (push_ok self v Hinv Hlt Hv) as (s & Hs & _).
      eauto.
  - intros Hf. unfold push, is_full. by rewrite Hf, Z.eqb_refl.
  - intros Hlt Hv. by apply push_overflow.
Qed.

Lemma push_outcomes_witness :
  let self := {| capacity := 2; default_item := 1;
                 stack := [5; 0]; top_of_stack := 1 |} in
  stack_inv self /\
  push (2 ^ 63) self = (Raise OverflowError, self) /\
  exists self', push 6 self = (Ok tt, self').
Proof.
  intros self.
  assert (Hinv : stack_inv self).
  { split; [simpl; lia|reflexivity|repeat constructor]. }
  split; [exact Hinv|].
  destruct (push_outcomes self (2 ^ 63) Hinv) as (_ & _ & Ho).
  destruct (push_outcomes self 6 Hinv) as (Hs & _ & _).
  split; [apply Ho; [simpl; lia|reflexivity]|].
  apply Hs. split; [simpl; lia|reflexivity].
Defined.

(** X6. On a stack that satisfies the invariant, [pop] succeeds exactly
    when the stack is not empty; it then returns the last valid element,
    lowers [top_of_stack] by one and leaves the array as it is. When it
    fails the exception is the "Pop failed" [IndexError] and the object is
    unchanged. *)
Theorem pop_outcomes (self : MyStack.t) :
  stack_inv self ->
  ((exists v self', pop self = (Ok v, self')) <-> 0 < top_of_stack self) /\
  (forall v self', pop self = (Ok v, self') ->
     contents self = contents self' ++ [v] /\
     top_of_stack self' = top_of_stack self - 1 /\
     stack self' = stack self) /\
  (forall e self', pop self = (Raise e, self') ->
     e = StackUnderflow /\ self' = self).
Proof.
  intros Hinv. split; [|split].
  - split.
    + intros (v & s & Hs). destruct Hinv as [Ht _ _]. revert Hs.
      unfold pop, is_empty.
      destruct (top_of_stack self =? 0) eqn:E; [done|lia].
    + intros Hpos. destruct (contents_snoc self Hinv Hpos) as (l & v & Hc).
      destruct (pop_ok self l v Hinv Hc) as (s & Hs & _). eauto.
  - intros v s Hs.
    assert (Hpos : 0 < top_of_stack self).
    { destruct Hinv as [Ht _ _]. revert Hs. unfold pop, is_empty.
      destruct (top_of_stack self =? 0) eqn:E; [done|lia]. }
    destruct (contents_snoc self Hinv Hpos) as (l & w & Hc).
    destruct (pop_ok self l w Hinv Hc) as (s' & Hs' & _ & _ & Ht' & Hc').
    rewrite Hs' in Hs. injection Hs as -> ->.
    split; [by rewrite Hc, Hc'|]. split; [done|].
    revert Hs'. unfold pop. destruct (is_empty self); [done|].
    by intros [= _ <-].
  - intros e s Hs.
    destruct (pop_failed_unchanged _ _ _ Hinv Hs) as [-> Hz].
    split; [|done]. revert Hs. unfold pop, is_empty. rewrite Hz. simpl.
    by intros [= <-].
Qed.

Lemma pop_outcomes_witness :
  let self := {| capacity := 3; default_item := 1;
                 stack := [5; 8; 0]; top_of_stack := 2 |} in
  stack_inv self /\ exists v self', pop self = (Ok v, self').
Proof.
  intros self.
  assert (Hinv : stack_inv self).
  { split; [simpl; lia|reflexivity|repeat constructor]. }
  split; [exact Hinv|].
  destruct (pop_outcomes self Hinv) as (Hs & _ & _).
  apply Hs. reflexivity.
Defined.

(** * Further properties of [mult] *)

Lemma mult_call_py_measure x y x' y' :
  mult_call (H := py_int) x y = Some (x', y') ->
  mult_measure x' y' = mult_measure x y - 1.
Proof.
  unfold mult_call, mult_measure. simpl.
  destruct ((y =? 0) || (x =? 0)) eqn:E0; [done|].
  destruct ((x <? 0) && (y <? 0)) eqn:E1;
    [|destruct ((y <? 0) && (x >? 0)) eqn:E2];
    intros [= <- <-];
    repeat match goal with
      | |- context [if ?b then _ else _] => destruct b eqn:?; try lia
      end.
Qed.

Lemma mult_py_exhausted depth x y :
  Z.of_nat depth <= mult_measure x y + 1 ->
  mult (H := py_int) depth x y = Raise RecursionError.
Proof.
  revert x y. induction depth as [|d IH]; intros x y Hd; [done|].
  destruct d as [|d']; [done|].
  rewrite mult_unfold by lia.
  destruct (mult_call x y) as [[x' y']|] eqn:Hc.
  - rewrite IH; [done|]. rewrite (mult_call_py_measure _ _ _ _ Hc). lia.
  - revert Hc Hd. unfold mult_call, mult_measure.
    destruct ((y =? 0) || (x =? 0)); [lia|].
    destruct ((x <? 0) && (y <? 0)); [done|].
    destruct ((y <? 0) && (x >? 0)); done.
Qed.

(** X7. On Python integers, with at least two more levels of recursion
    than [mult_measure x y], [mult(x, y)] returns the product [x * y]
    unless both operands are negative, and the square [x * x] when both
    are. *)
Theorem mult_value (depth : nat) (x y : Z) :
  mult_measure x y < Z.of_nat depth - 1 ->
  (~ (x < 0 /\ y < 0) -> mult (H := py_int) depth x y = Ok (x * y)) /\
  (x < 0 /\ y < 0 -> mult (H := py_int) depth x y = Ok (x * x)).
Proof.
  intros Hd. rewrite (mult_py_value depth x y Hd).
  destruct ((x <? 0) && (y <? 0)) eqn:E; split; intros H; try done; lia.
Qed.

Lemma mult_value_witness :
  mult (H := py_int) 1000 (-5) 27 = Ok (-5 * 27) /\
  mult (H := py_int) 1000 5 (-27) = Ok (5 * -27).
Proof.
  split.
  - apply (mult_value 1000 (-5) 27); [reflexivity|lia].
  - apply (mult_value 1000 5 (-27)); [reflexivity|lia].
Defined.

(** X8. The recursion depth of [mult] on Python integers is set by
    [mult_measure x y], the number of recursive calls: with no more levels
    left than that number the call ends in [RecursionError], and with at
    least two more it returns. (With exactly one more the outcome depends
    on how the interpreter runs the comparisons; the statement leaves that
    case out.) The measure is 0 when an operand is 0; otherwise it is [y]
    for a positive [y], [x] for a positive [x] and a negative [y], and
    [-x] when both are negative. *)
Theorem mult_recursion_depth (depth : nat) (x y : Z) :
  (Z.of_nat depth <= mult_measure x y ->
   mult (H := py_int) depth x y = Raise RecursionError) /\
  (mult_measure x y + 2 <= Z.of_nat depth ->
   exists v, mult (H := py_int) depth x y = Ok v) /\
  (0 < y -> x <> 0 -> mult_measure x y = y) /\
  (y < 0 -> 0 < x -> mult_measure x y = x) /\
  (y < 0 -> x < 0 -> mult_measure x y = - x) /\
  (x = 0 \/ y = 0 -> mult_measure x y = 0).
Proof.
  split; [|split].
  - intros Hd. apply mult_py_exhausted. lia.
  - intros Hd. rewrite mult_py_value by lia. eauto.
  - unfold mult_measure.
    split; [|split; [|split]]; intros;
      repeat match goal with
        | |- context [if ?b then _ else _] => destruct b eqn:?; try lia
        end.
Qed.

Lemma mult_more_frames `{Number} depth x y v :
  mult depth x y = Ok v -> mult (S depth) x y = Ok v.
Proof.
  revert x y v. induction depth as [|d IH]; intros x y v; [done|].
  destruct d as [|d']; [done|].
  rewrite (mult_unfold (S (S d'))), (mult_unfold (S d')) by lia.
  destruct (mult_call x y) as [[x' y']|]; [|done].
  destruct (mult (S d') x' y') as [r|e] eqn:Hr; [|done].
  by rewrite (IH _ _ _ Hr).
Qed.

Lemma mult_mono `{Number} depth depth' x y v :
  (depth <= depth')%nat ->
  mult depth x y = Ok v -> mult depth' x y = Ok v.
Proof.
  induction 1 as [|d' _ IH]; [done|].
  intros Hv. by apply mult_more_frames, IH.
Qed.

Lemma mult_raises `{Number} depth x y e :
  mult depth x y = Raise e -> e = RecursionError.
Proof.
  revert x y. induction depth as [|d IH]; intros x y; [by intros [= <-]|].
  destruct d as [|d']; [by intros [= <-]|].
  rewrite mult_unfold by lia.
  destruct (mult_call x y) as [[x' y']|]; [|done].
  destruct (mult (S d') x' y') as [r|e'] eqn:Hr; [done|].
  simpl. intros [= <-]. by apply (IH _ _ Hr).
Qed.

(** * Further properties of [parse] *)

Lemma no_space_app s1 s2 :
  no_space (s1 +:+ s2) = no_space s1 && no_space s2.
Proof.
  induction s1 as [|c s1 IH]; [done|].
  rewrite append_cons. simpl. rewrite IH. by rewrite andb_assoc.
Qed.

Lemma append_not_empty (s : string) c : s +:+ String c "" <> "".
Proof. by destruct s. Qed.

Lemma split_from_tokens tok s :
  no_space tok = true -> Forall is_token (Py.split_from tok s).
Proof.
  revert tok. induction s as [|c s IH]; intros tok Htok; simpl.
  - destruct (String.eqb tok "") eqn:E; [done|].
    apply String.eqb_neq in E. by repeat constructor.
  - destruct (Py.is_space c) eqn:Hc.
    + destruct (String.eqb tok "") eqn:E; [by apply IH|].
      apply String.eqb_neq in E. constructor; [done|by apply IH].
    + apply IH. rewrite no_space_app, Htok. simpl. by rewrite Hc.
Qed.

Lemma split_from_space c s :
  Py.is_space c = true ->
  Py.split_from "" (String c s) = Py.split_from "" s.
Proof. intros Hc. simpl. by rewrite Hc. Qed.

Lemma split_join tokens :
  Forall is_token tokens ->
  Py.split_from "" (String.concat " " tokens) = tokens.
Proof.
  induction 1 as [|t ts [Ht Hne] Hts IH]; [done|].
  destruct ts as [|t' ts'].
  - simpl. by apply split_from_last.
  - change (String.concat " " (t :: t' :: ts'))
      with (t +:+ " " +:+ String.concat " " (t' :: ts')).
    rewrite split_from_token by done. by rewrite IH.
Qed.

(** X9. [parse] undoes the joining of tokens by single spaces: for
    strings that are not empty and contain no white space, parsing their
    concatenation with one space in between gives the strings back. *)
Theorem parse_join (tokens : list string) :
  Forall is_token tokens ->
  parse (String.concat " " tokens) = tokens.
Proof. apply split_join. Qed.

Lemma parse_join_witness :
  parse (String.concat " " ["15"; "-5"; "*"]) = ["15"; "-5"; "*"].
Proof.
  apply (parse_join ["15"; "-5"; "*"]).
  repeat constructor; discriminate.
Defined.

(** X10. Whatever the input, no token that [parse] returns is empty or
    contains a white-space character, and white space at the start of the
    input makes no difference. *)
Theorem parse_tokens (rpn_expression : string) :
  Forall is_token (parse rpn_expression) /\
  (forall c, Py.is_space c = true ->
     parse (String c rpn_expression) = parse rpn_expression).
Proof.
  split.
  - by apply split_from_tokens.
  - intros c Hc. by apply split_from_space.
Qed.

(** * Further properties of [eval_tokens] and [eval] *)

Lemma eval_loop_app depth tokens1 tokens2 self :
  eval_loop depth (tokens1 ++ tokens2) self =
    match eval_loop depth tokens1 self with
    | (Ok _, self') => eval_loop depth tokens2 self'
    | (Raise e, self') => (Raise e, self')
    end.
Proof.
  revert self. induction tokens1 as [|t ts IH]; intros self; [done|].
  simpl app. rewrite !eval_loop_cons.
  destruct (eval_token depth t self) as [[[]|e] s]; [apply IH|done].
Qed.

(** X11. The loop of [eval_tokens] over a concatenation of token lists is
    the loop over the first list followed, on the stack it leaves, by the
    loop over the second; an exception in the first list ends the
    evaluation, and the tokens after it have no effect. *)
Theorem eval_loop_sequence
    (depth : nat) (tokens1 tokens2 : list string) (self : MyStack.t) :
  eval_loop depth (tokens1 ++ tokens2) self =
    (eval_loop depth tokens1 ;;; eval_loop depth tokens2) self /\
  (forall e self', eval_loop depth tokens1 self = (Raise e, self') ->
     eval_loop depth (tokens1 ++ tokens2) self = (Raise e, self')).
Proof.
  split.
  - rewrite eval_loop_app. unfold bind.
    by destruct (eval_loop depth tokens1 self) as [[[]|e] s].
  - intros e s H. by rewrite eval_loop_app, H.
Qed.

Lemma eval_token_symbol depth o self l a b :
  stack_inv self -> contents self = l ++ [a; b] ->
  (o = Mul -> ~ (a < 0 /\ b < 0) /\ mult_measure a b < Z.of_nat depth - 1) ->
  exists self',
    eval_token depth (symbol o) self = (Ok tt, self') /\
    stack_inv self' /\ capacity self' = capacity self /\
    contents self' = l ++ [apply_operator o a b].
Proof.
  intros Hinv Hc Hm. destruct o; simpl.
  - by apply eval_token_add.
  - by apply eval_token_sub.
  - destruct (Hm eq_refl). by apply eval_token_mult.
  - by apply eval_token_floor.
Qed.

Lemma value_in_int64 depth e :
  evaluable depth e -> Np.in_int64 (value e) = true.
Proof.
  destruct e as [n|o lhs rhs]; simpl; [done|]. intros _.
  destruct o; simpl; try apply wrap64_in_int64.
  destruct (value rhs =? 0); [done|apply wrap64_in_int64].
Qed.

Lemma stack_need_pos e : 1 <= stack_need e.
Proof. induction e; simpl; lia. Qed.

Lemma eval_loop_postfix depth e :
  evaluable depth e ->
  forall self l,
    stack_inv self -> contents self = l ->
    top_of_stack self + stack_need e <= capacity self ->
    exists self',
      eval_loop depth (postfix e) self = (Ok tt, self') /\
      stack_inv self' /\ capacity self' = capacity self /\
      contents self' = l ++ [value e].
Proof.
  induction e as [n|o lhs IHl rhs IHr];
    cbn [postfix evaluable value stack_need].
  - intros Hn self l Hinv Hc Hcap.
    rewrite eval_loop_cons, (eval_token_operand _ _ _ _ (int_str n)).
    destruct (push_ok self n Hinv) as (s & Hs & Hi & Hk & _ & Hc');
      [lia|done|].
    exists s. rewrite Hs. simpl. unfold ret. by rewrite Hc', Hc.
  - intros (Hel & Her & Hm) self l Hinv Hc Hcap.
    pose proof (stack_need_pos lhs). pose proof (stack_need_pos rhs).
    destruct (IHl Hel self l Hinv Hc) as (s1 & H1 & Hi1 & Hk1 & Hc1); [lia|].
    pose proof (contents_length _ Hinv) as Hn.
    pose proof (contents_length _ Hi1) as Hn1.
    rewrite Hc in Hn. rewrite Hc1, length_app in Hn1. simpl in Hn1.
    destruct (IHr Her s1 _ Hi1 Hc1) as (s2 & H2 & Hi2 & Hk2 & Hc2); [lia|].
    rewrite <- app_assoc in Hc2. simpl in Hc2.
    destruct (eval_token_symbol depth o s2 l _ _ Hi2 Hc2 Hm)
      as (s3 & H3 & Hi3 & Hk3 & Hc3).
    exists s3. rewrite eval_loop_app, H1, eval_loop_app, H2.
    rewrite eval_loop_cons, H3. simpl. unfold ret.
    split; [done|]. split; [done|]. split; [congruence|done].
Qed.

Lemma symbol_is_token o : is_token (symbol o).
Proof. by destruct o. Qed.

Lemma postfix_tokens e : Forall is_token (postfix e).
Proof.
  induction e as [n|o lhs IHl rhs IHr]; simpl.
  - constructor; [|done]. split; [apply no_space_str|apply str_not_empty].
  - apply Forall_app. split; [done|]. apply Forall_app. split; [done|].
    constructor; [apply symbol_is_token|done].
Qed.

(** X12. The evaluator computes every expression from its reverse Polish
    form. For an expression whose operands fit 64 bits, whose products
    have operands that are not both negative and find at least
    [mult_measure + 2] levels of recursion, and whose postfix form needs no more than the 1000 slots of
    the stack, evaluating the postfix tokens, or the string that joins
    them by spaces, returns the value of the expression, computed with
    64-bit wrap-around and with 0 for a division by zero. *)
Theorem eval_expression (depth : nat) (e : expr) :
  evaluable depth e -> stack_need e <= 1000 ->
  eval_tokens depth (postfix e) = Ok (value e) /\
  RpnCalculator.eval depth (String.concat " " (postfix e)) = Ok (value e).
Proof.
  intros He Hn.
  assert (Ht : eval_tokens depth (postfix e) = Ok (value e)).
  { rewrite eval_tokens_unfold.
    destruct (eval_loop_postfix depth e He my_stack0 [] my_stack0_inv)
      as (s & Hs & Hi & _ & Hc); [done|simpl; lia|].
    rewrite Hs. simpl in Hc.
    pose proof (contents_length _ Hi) as Hl. rewrite Hc in Hl. simpl in Hl.
    destruct (eval_finish_one s Hi) as (w & s' & Hw & Hf); [lia|].
    rewrite Hf. simpl. congruence. }
  split; [done|]. unfold RpnCalculator.eval.
  unfold parse, Py.split. by rewrite (split_join _ (postfix_tokens e)).
Qed.

Lemma eval_expression_witness :
  let e := Apply Sub
             (Apply Mul
                (Apply FloorDiv (Operand 15)
                   (Apply Sub (Operand 7)
                      (Apply Add (Operand 1) (Operand 1))))
                (Operand 3))
             (Apply Add (Operand 2) (Apply Add (Operand 1) (Operand 1))) in
  String.concat " " (postfix e) = "15 7 1 1 + - // 3 * 2 1 1 + + -" /\
  RpnCalculator.eval 1000 "15 7 1 1 + - // 3 * 2 1 1 + + -" = Ok 5.
Proof.
  intros e. split; [reflexivity|].
  assert (He : evaluable 1000 e).
  { cbn [e evaluable].
    repeat match goal with
      | |- _ /\ _ => split
      | |- Np.in_int64 _ = true => reflexivity
      | |- _ = Mul -> _ => intros _
      | |- _ < _ => reflexivity
      end;
    intros [H _]; vm_compute in H; discriminate. }
  destruct (eval_expression 1000 e He) as [_ H]; [vm_compute; discriminate|].
  exact H.
Defined.

(** X13. A token that is not an integer literal, met when fewer than two
    values are on the stack, ends the evaluation with the "Pop failed"
    [IndexError], whether or not it is an operator; a single value that was
    there has been popped. *)
Theorem operator_underflow
    (depth : nat) (token : string) (self : MyStack.t) :
  Py.int token = None -> stack_inv self -> top_of_stack self < 2 ->
  exists self',
    eval_token depth token self = (Raise StackUnderflow, self') /\
    top_of_stack self' = 0 /\ capacity self' = capacity self.
Proof.
  intros Hi Hinv Hlt. unfold eval_token. rewrite Hi. unfold bind.
  destruct (decide (top_of_stack self = 0)) as [Hz|Hnz].
  - exists self. unfold pop at 1, is_empty. rewrite Hz. done.
  - assert (Hpos : 0 < top_of_stack self) by (destruct Hinv; lia).
    destruct (contents_snoc self Hinv Hpos) as (l & v & Hc).
    destruct (pop_ok self l v Hinv Hc) as (s1 & Hp & Hi1 & Hk1 & Ht1 & _).
    rewrite Hp. exists s1. unfold pop, is_empty.
    replace (top_of_stack s1) with 0 by lia. simpl.
    split; [done|]. split; [lia|done].
Qed.

Lemma operator_underflow_witness :
  let self := {| capacity := 3; default_item := 1;
                 stack := [5; 0; 0]; top_of_stack := 1 |} in
  exists self', eval_token 1000 "+" self = (Raise StackUnderflow, self').
Proof.
  intros self.
  assert (Hinv : stack_inv self).
  { split; [simpl; lia|reflexivity|repeat constructor]. }
  destruct (operator_underflow 1000 "+" self eq_refl Hinv) as (s & Hs & _);
    [reflexivity|].
  exists s. exact Hs.
Defined.

(** X14. A token that is neither an integer literal nor one of [+], [-],
    [//] and [*], met with at least two values on the stack, ends the
    evaluation with the "Unknown operator" [ValueError]; the two values
    have been popped by then. *)
Theorem unknown_operator
    (depth : nat) (token : string) (self : MyStack.t) (l : list Z) (a b : Z) :
  Py.int token = None ->
  token <> ADDITION -> token <> SUBTRACTION ->
  token <> FLOOR -> token <> MULTIPLICATION ->
  stack_inv self -> contents self = l ++ [a; b] ->
  exists self',
    eval_token depth token self = (Raise UnknownOperator, self') /\
    contents self' = l.
Proof.
  intros Hi H1 H2 H3 H4 Hinv Hc.
  destruct (pop_two self l a b Hinv Hc) as (s2 & _ & _ & _ & Hc2 & Hp).
  exists s2. split; [|done]. unfold eval_token. rewrite Hi.
  rewrite (Hp _ (operator_case depth token)).
  apply String.eqb_neq in H1, H2, H3, H4. by rewrite H1, H2, H3, H4.
Qed.

Lemma unknown_operator_witness :
  let self := {| capacity := 3; default_item := 1;
                 stack := [1; 1; 0]; top_of_stack := 2 |} in
  exists self',
    eval_token 1000 "&" self = (Raise UnknownOperator, self') /\
    contents self' = [].
Proof.
  intros self.
  assert (Hinv : stack_inv self).
  { split; [simpl; lia|reflexivity|repeat constructor]. }
  apply (unknown_operator 1000 "&" self [] 1 1);
    try discriminate; try reflexivity; exact Hinv.
Defined.

Lemma push_raises self v e self' :
  stack_inv self -> push v self = (Raise e, self') ->
  e = StackOverflow \/ e = OverflowError.
Proof.
  intros [Ht Hl Hr]. unfold push, is_full, Np.setitem.
  destruct (top_of_stack self =? capacity self) eqn:E;
    [intros [= <- _]; by left|].
  rewrite position_in_range by lia.
  destruct (Np.in_int64 v); [done|]. intros [= <- _]. by right.
Qed.

Lemma pop_raises self e self' :
  stack_inv self -> pop self = (Raise e, self') -> e = StackUnderflow.
Proof.
  intros Hinv Hp. destruct (pop_failed_unchanged _ _ _ Hinv Hp) as [-> Hz].
  revert Hp. unfold pop, is_empty. rewrite Hz. simpl. by intros [= <-].
Qed.

Lemma eval_token_raises depth token self e self' :
  stack_inv self -> eval_token depth token self = (Raise e, self') ->
  In e eval_exceptions.
Proof.
  intros Hinv. unfold eval_token, eval_exceptions.
  assert (Hpush : forall s v, stack_inv s -> push v s = (Raise e, self') ->
            In e [StackOverflow; StackUnderflow; UnknownOperator;
                  MalformedExpression; OverflowError; RecursionError]).
  { intros s v Hs Hp. destruct (push_raises _ _ _ _ Hs Hp) as [->| ->];
      simpl; tauto. }
  destruct (Py.int token) as [n|]; [by apply Hpush|].
  unfold bind.
  destruct (pop self) as [[right_arg|e1] s1] eqn:Hp1;
    [|intros [= <- _]; rewrite (pop_raises _ _ _ Hinv Hp1); simpl; tauto].
  destruct (pop_inv _ _ _ Hinv Hp1) as [Hi1 _].
  destruct (pop s1) as [[left_arg|e2] s2] eqn:Hp2;
    [|intros [= <- _]; rewrite (pop_raises _ _ _ Hi1 Hp2); simpl; tauto].
  destruct (pop_inv _ _ _ Hi1 Hp2) as [Hi2 _].
  destruct (String.eqb token ADDITION); [by apply Hpush|].
  destruct (String.eqb token SUBTRACTION); [by apply Hpush|].
  destruct (String.eqb token FLOOR); [by apply Hpush|].
  destruct (String.eqb token MULTIPLICATION).
  - unfold lift.
    destruct (mult depth left_arg right_arg) as [p|e3] eqn:Hm;
      [by apply Hpush|].
    intros [= <- _]. rewrite (mult_raises _ _ _ _ Hm). simpl. tauto.
  - unfold raise. intros [= <- _]. simpl. tauto.
Qed.

Lemma eval_loop_raises depth tokens self e self' :
  stack_inv self -> eval_loop depth tokens self = (Raise e, self') ->
  In e eval_exceptions.
Proof.
  revert self. induction tokens as [|t ts IH]; intros self Hinv; [done|].
  rewrite eval_loop_cons.
  destruct (eval_token depth t self) as [[[]|e1] s1] eqn:H1.
  - destruct (eval_token_inv _ _ _ _ _ Hinv H1) as [Hi1 _]. by apply IH.
  - intros [= <- _]. by apply (eval_token_raises depth t self e1 s1).
Qed.

(** X15. Whatever the tokens and the recursion depth, an evaluation that
    fails raises one of six exceptions: the "Push failed", "Pop failed"
    and "Not enough operator" [IndexError]s, the "Unknown operator"
    [ValueError], [OverflowError] or [RecursionError]. It never raises the
    constructor's [ValueError] nor an index error of the array. *)
Theorem eval_raises_only
    (depth : nat) (rpn_expression : string) (tokens : list string) (e : exn) :
  (eval_tokens depth tokens = Raise e -> In e eval_exceptions) /\
  (RpnCalculator.eval depth rpn_expression = Raise e ->
   In e eval_exceptions) /\
  (forall capacity, ~ In (InvalidCapacity capacity) eval_exceptions) /\
  ~ In Np.out_of_bounds eval_exceptions.
Proof.
  assert (H : forall ts, eval_tokens depth ts = Raise e ->
                         In e eval_exceptions).
  { intros ts. rewrite eval_tokens_unfold.
    destruct (eval_loop depth ts my_stack0) as [[[]|e1] s] eqn:Hl.
    - destruct (eval_loop_inv _ _ _ _ _ my_stack0_inv Hl) as [Hinv _].
      unfold eval_finish.
      destruct (negb (top_of_stack s / 2 =? 0));
        [simpl; intros [= <-]; unfold eval_exceptions; simpl; tauto|].
      destruct (pop s) as [[v|e2] s'] eqn:Hp; [done|].
      simpl. intros [= <-]. rewrite (pop_raises _ _ _ Hinv Hp).
      unfold eval_exceptions. simpl. tauto.
    - intros [= <-].
      exact (eval_loop_raises depth ts my_stack0 e1 s my_stack0_inv Hl). }
  split; [apply H|]. split; [apply H|]. split.
  - intros capacity Hin. unfold eval_exceptions in Hin. simpl in Hin.
    destruct Hin as [Hx|[Hx|[Hx|[Hx|[Hx|[Hx|[]]]]]]]; discriminate.
  - intros Hin. unfold eval_exceptions in Hin. simpl in Hin.
    destruct Hin as [Hx|[Hx|[Hx|[Hx|[Hx|[Hx|[]]]]]]]; discriminate.
Qed.

Lemma eval_token_more_frames depth depth' token self r self' :
  (depth <= depth')%nat ->
  eval_token depth token self = (r, self') ->
  r <> Raise RecursionError ->
  eval_token depth' token self = (r, self').
Proof.
  intros Hd. unfold eval_token.
  destruct (Py.int token) as [n|]; [done|]. unfold bind.
  destruct (pop self) as [[right_arg|e1] s1]; [|done].
  destruct (pop s1) as [[left_arg|e2] s2]; [|done].
  destruct (String.eqb token ADDITION); [done|].
  destruct (String.eqb token SUBTRACTION); [done|].
  destruct (String.eqb token FLOOR); [done|].
  destruct (String.eqb token MULTIPLICATION); [|done].
  unfold lift.
  destruct (mult depth left_arg right_arg) as [p|e3] eqn:Hm.
  - by rewrite (mult_mono _ _ _ _ _ Hd Hm).
  - rewrite (mult_raises _ _ _ _ Hm). by intros [= <- _] Hr.
Qed.

Lemma eval_loop_more_frames depth depth' tokens self r self' :
  (depth <= depth')%nat ->
  eval_loop depth tokens self = (r, self') ->
  r <> Raise RecursionError ->
  eval_loop depth' tokens self = (r, self').
Proof.
  intros Hd. revert self. induction tokens as [|t ts IH]; intros self; [done|].
  rewrite !eval_loop_cons.
  destruct (eval_token depth t self) as [[[]|e1] s1] eqn:H1.
  - rewrite (eval_token_more_frames _ _ _ _ _ _ Hd H1) by done. apply IH.
  - intros [= <- <-] Hr.
    by rewrite (eval_token_more_frames _ _ _ _ _ _ Hd H1).
Qed.

(** X16. More recursion depth never changes an outcome: an evaluation
    that returns a value, or raises anything but [RecursionError], does
    the same with any larger number of frames available. *)
Theorem eval_more_frames
    (depth depth' : nat) (rpn_expression : string) (r : result Z) :
  (depth <= depth')%nat ->
  RpnCalculator.eval depth rpn_expression = r ->
  r <> Raise RecursionError ->
  RpnCalculator.eval depth' rpn_expression = r.
Proof.
  intros Hd. unfold RpnCalculator.eval. rewrite !eval_tokens_unfold.
  destruct (eval_loop depth (parse rpn_expression) my_stack0)
    as [[[]|e] s] eqn:Hl.
  - by rewrite (eval_loop_more_frames _ _ _ _ _ _ Hd Hl).
  - intros <- Hr.
    rewrite (eval_loop_more_frames _ _ _ _ _ _ Hd Hl); [done|].
    intros [= ->]. by apply Hr.
Qed.

Lemma eval_more_frames_witness :
  RpnCalculator.eval 17 "15 -5 *" = Ok (-75) /\
  RpnCalculator.eval 1000 "15 -5 *" = Ok (-75).
Proof.
  assert (H : RpnCalculator.eval 17 "15 -5 *" = Ok (-75))
    by (vm_compute; reflexivity).
  split; [exact H|].
  apply (eval_more_frames 17 1000 "15 -5 *" (Ok (-75))).
  - apply Nat.leb_le. reflexivity.
  - exact H.
  - discriminate.
Defined.

Lemma eval_loop_operands depth tokens :
  Forall (fun t => exists n, Py.int t = Some n /\ Np.in_int64 n = true)
    tokens ->
  forall self,
    stack_inv self ->
    top_of_stack self + Z.of_nat (length tokens) <= capacity self ->
    exists self',
      eval_loop depth tokens self = (Ok tt, self') /\
      stack_inv self' /\ capacity self' = capacity self /\
      top_of_stack self' = top_of_stack self + Z.of_nat (length tokens).
Proof.
  induction 1 as [|t ts (n & Hn & Hr) _ IH]; intros self Hinv Hcap.
  - exists self. simpl. unfold ret. split; [done|]. split; [done|].
    split; [done|lia].
  - simpl length in *. rewrite eval_loop_cons, (eval_token_operand _ _ _ _ Hn).
    destruct (push_ok self n Hinv) as (s1 & Hp & Hi1 & Hk1 & Ht1 & _);
      [lia|done|].
    rewrite Hp. destruct (IH s1 Hi1) as (s2 & H2 & Hi2 & Hk2 & Ht2); [lia|].
    exists s2. split; [done|]. split; [done|]. split; [congruence|lia].
Qed.

(** X17. An expression made of operands only, each an integer literal that
    fits 64 bits: with more than 1000 of them the evaluation raises the
    "Push failed" [IndexError] at operand 1001; with 2 to 1000 of them it
    raises the "Not enough operator" [IndexError]. *)
Theorem operands_only (depth : nat) (tokens : list string) :
  Forall (fun t => exists n, Py.int t = Some n /\ Np.in_int64 n = true)
    tokens ->
  (1000 < Z.of_nat (length tokens) ->
   eval_tokens depth tokens = Raise StackOverflow) /\
  (2 <= Z.of_nat (length tokens) <= 1000 ->
   eval_tokens depth tokens = Raise MalformedExpression).
Proof.
  intros Hops. rewrite eval_tokens_unfold.
  assert (Ht0 : top_of_stack my_stack0 = 0) by reflexivity.
  assert (Hk0 : capacity my_stack0 = 1000) by reflexivity.
  split; intros Hlen.
  - rewrite <- (take_drop 1000 tokens), eval_loop_app.
    destruct (eval_loop_operands depth (take 1000 tokens)
                (Forall_take _ _ _ Hops) my_stack0 my_stack0_inv)
      as (s & Hs & Hi & Hk & Ht).
    { rewrite length_take. lia. }
    rewrite Hs. rewrite length_take in Ht.
    destruct (drop 1000 tokens) as [|t ts] eqn:Hdrop.
    { apply (f_equal length) in Hdrop. rewrite length_drop in Hdrop.
      simpl in Hdrop. lia. }
    assert (Ht' : Forall (fun t => exists n, Py.int t = Some n /\
                                    Np.in_int64 n = true) (t :: ts))
      by (rewrite <- Hdrop; by apply Forall_drop).
    apply Forall_cons in Ht' as [(n & Hn & _) _].
    rewrite eval_loop_cons, (eval_token_operand _ _ _ _ Hn).
    unfold push, is_full.
    replace (top_of_stack s =? capacity s) with true; [done|].
    symmetry. apply Z.eqb_eq. lia.
  - destruct (eval_loop_operands depth tokens Hops my_stack0 my_stack0_inv)
      as (s & Hs & Hi & Hk & Ht); [lia|].
    rewrite Hs. rewrite eval_finish_many; [done|]. lia.
Qed.

Lemma operands_only_witness :
  eval_tokens 1000 ["1"; "1"] = Raise MalformedExpression.
Proof.
  apply (operands_only 1000 ["1"; "1"]).
  - repeat constructor; exists 1; split; reflexivity.
  - simpl. lia.
Defined.

(** X18. For two negative operands in the 64-bit range and at least
    [-a + 2] levels of recursion, the expression "a b *" evaluates to the square of [a]
    reduced to 64 bits, whatever [b] is. *)
Theorem eval_product_of_negatives (depth : nat) (a b : Z) :
  Np.in_int64 a = true -> Np.in_int64 b = true ->
  a < 0 -> b < 0 -> - a < Z.of_nat depth - 1 ->
  RpnCalculator.eval depth (binary_expression a b "*")
    = Ok (Np.wrap64 (a * a)).
Proof.
  intros Ha Hb Han Hbn Hd. apply eval_binary; try done.
  intros self Hinv Hc.
  apply (binary_step self [] a b _ (operator_case depth MULTIPLICATION)
           Hinv Hc); [apply wrap64_in_int64|].
  intros s2. simpl. unfold bind, lift. by rewrite mult_np_neg_neg.
Qed.

Lemma eval_product_of_negatives_witness :
  RpnCalculator.eval 1000 (binary_expression (-5) (-27) "*")
    = Ok (Np.wrap64 (-5 * -5)).
Proof.
  apply (eval_product_of_negatives 1000 (-5) (-27));
    try reflexivity; lia.
Defined.
